(** * rtocBot: the vehicle list parser, the report formatter, the lookup
      client, the vehicle sequencer and the daily trigger

    A shallow embedding of [check/check.go] and of the [/check] handler of
    [cmd/bot/bot.go].  Go strings are byte strings: [string] below is a list
    of bytes, [String.length] is Go's [len] and the literals hold the UTF-8
    bytes of the source literals. *)

From Stdlib Require Import String Ascii List ZArith Lia Bool DecimalString.
Import ListNotations.
Local Open Scope list_scope.
Local Open Scope string_scope.

(** ** Byte strings *)

Definition nl : string := String "010" "".

Lemma append_nil_r (s : string) : s ++ "" = s.
Proof. induction s as [|c s IH]; simpl; congruence. Qed.

Lemma append_assoc (a b c : string) : (a ++ b) ++ c = a ++ b ++ c.
Proof. induction a as [|x a IH]; simpl; congruence. Qed.

Lemma length_append (a b : string) :
  String.length (a ++ b) = (String.length a + String.length b)%nat.
Proof. induction a as [|x a IH]; simpl; congruence. Qed.

Fixpoint bytes (s : string) : list ascii :=
  match s with
  | "" => []
  | String c r => c :: bytes r
  end.

(** [s] occurs in [t] as a contiguous run of bytes. *)
Definition Contains (s t : string) : Prop :=
  exists pre post, t = pre ++ s ++ post.

Lemma Contains_refl s : Contains s s.
Proof. exists "", "". simpl. now rewrite append_nil_r. Qed.

Lemma Contains_app_l s t u : Contains s t -> Contains s (t ++ u).
Proof.
  intros (pre & post & ->). exists pre, (post ++ u).
  now rewrite !append_assoc.
Qed.

Lemma Contains_app_r s t u : Contains s u -> Contains s (t ++ u).
Proof.
  intros (pre & post & ->). exists (t ++ pre), post.
  now rewrite !append_assoc.
Qed.

(** ** The parts of Go's standard library the program calls *)

(** [fmt]'s [%d] verb on an [int]. *)
Definition itoa (n : Z) : string := NilZero.string_of_int (Z.to_int n).

(** Go's [len] as an [int]. *)
Definition len {A} (l : list A) : Z := Z.of_nat (List.length l).

(** [for i, x := range l { body }] over a state [S]. *)
Fixpoint range_from {A S : Type} (i : Z) (l : list A) (body : Z -> A -> S -> S)
    (s : S) : S :=
  match l with
  | [] => s
  | x :: r => range_from (i + 1) r body (body i x s)
  end.

Definition range {A S : Type} (l : list A) (body : Z -> A -> S -> S) (s : S) : S :=
  range_from 0 l body s.

Module strings.

Definition RuneSelf : N := 128.

Definition byte (c : ascii) : N := N_of_ascii c.

(** The table [asciiSpace]: tab, newline, vertical tab, form feed,
    carriage return and space. *)
Definition asciiSpace (c : ascii) : bool :=
  let n := byte c in
  ((n =? 9) || (n =? 10) || (n =? 11) || (n =? 12) || (n =? 13) || (n =? 32))%N.

Definition isLower (c : ascii) : bool := ((97 <=? byte c) && (byte c <=? 122))%N.

Definition upperByte (c : ascii) : ascii :=
  if isLower c then ascii_of_N (byte c - 32) else c.

Definition isASCII (s : string) : bool :=
  forallb (fun c => (byte c <? RuneSelf)%N) (bytes s).

(** [strings.Split(s, sep)] for a separator of one byte: [s] is cut at
    every occurrence of [sep]; the empty string gives one empty piece. *)
Fixpoint Split (s : string) (sep : ascii) : list string :=
  match s with
  | "" => [""]
  | String c r =>
      if Ascii.eqb c sep then "" :: Split r sep
      else match Split r sep with
           | p :: ps => String c p :: ps
           | [] => [String c ""]
           end
  end.

(** Where a scan of [TrimSpace] ends: at an ASCII byte that is no space
    (or at the end of the string), or at a byte outside ASCII, where Go
    hands the rest to the functions on Unicode. *)
Inductive scan : Type :=
| Stop (rest : string)
| Fallback (rest : string).

(** The first loop of [TrimSpace]: [s[start:]]. *)
Fixpoint scanStart (s : string) : scan :=
  match s with
  | "" => Stop ""
  | String c r =>
      if (RuneSelf <=? byte c)%N then Fallback s
      else if asciiSpace c then scanStart r
      else Stop s
  end.

(** The second loop of [TrimSpace], from the end: [s[:stop]]. *)
Fixpoint scanStop (s : string) : scan :=
  match s with
  | "" => Stop ""
  | String c r =>
      match scanStop r with
      | Stop "" =>
          if (RuneSelf <=? byte c)%N then Fallback (String c "")
          else if asciiSpace c then Stop ""
          else Stop (String c "")
      | Stop r' => Stop (String c r')
      | Fallback r' => Fallback (String c r')
      end
  end.

Fixpoint mapBytes (f : ascii -> ascii) (s : string) : string :=
  match s with
  | "" => ""
  | String c r => String (f c) (mapBytes f r)
  end.

End strings.

(** Package [time].  An instant is a number of nanoseconds since the Unix
    epoch together with the location it is displayed in; the calendar is the
    proleptic Gregorian one, computed from the day number by cycles of 400,
    100, 4 and 1 years. *)
Module time.

Local Open Scope Z_scope.

Definition Duration : Type := Z.

Definition Nanosecond : Duration := 1.
Definition Second : Duration := 1000000000 * Nanosecond.
Definition Minute : Duration := 60 * Second.
Definition Hour : Duration := 60 * Minute.

Record Location : Type := { name : string; offset : Z }.

(** [time.FixedZone(name, offset)]: [offset] seconds east of UTC, always. *)
Definition FixedZone (name : string) (offset : Z) : Location :=
  {| name := name; offset := offset |}.

Record Time : Type := { unixNano : Z; loc : Location }.

Definition In (t : Time) (l : Location) : Time :=
  {| unixNano := unixNano t; loc := l |}.

Definition After (t u : Time) : bool := (unixNano u <? unixNano t)%Z.
Definition Before (t u : Time) : bool := (unixNano t <? unixNano u)%Z.
Definition Equal (t u : Time) : bool := (unixNano t =? unixNano u)%Z.

Definition Add (t : Time) (d : Duration) : Time :=
  {| unixNano := unixNano t + d; loc := loc t |}.

Definition Sub (t u : Time) : Duration := unixNano t - unixNano u.

(** Seconds since the epoch on the wall clock of the location of [t]. *)
Definition localSeconds (t : Time) : Z :=
  unixNano t / 1000000000 + offset (loc t).

Definition localDay (t : Time) : Z := localSeconds t / 86400.

(** Year of the era (0..399), month and day from the day of the era, the
    era starting on 1 March of a year divisible by 400.  The years are cut
    off in cycles of 100, 4 and 1 years: the last century of an era and the
    last year of a 4-year cycle are one day longer, so a quotient of 4 is
    cut back to 3 (Go's [n -= n >> 2]). *)
Definition civilOfDoe (doe : Z) : Z * Z * Z :=
  let n := doe / 36524 in
  let n := n - n / 4 in
  let yoe := 100 * n in
  let d := doe - 36524 * n in
  let n := d / 1461 in
  let yoe := yoe + 4 * n in
  let d := d - 1461 * n in
  let n := d / 365 in
  let n := n - n / 4 in
  let yoe := yoe + n in
  let doy := d - 365 * n in
  let mp := (5 * doy + 2) / 153 in
  let d := doy - (153 * mp + 2) / 5 + 1 in
  let m := if mp <? 10 then mp + 3 else mp - 9 in
  (yoe, m, d).

Definition doeOfCivil (yoe m d : Z) : Z :=
  let doy := (153 * (if 2 <? m then m - 3 else m + 9) + 2) / 5 + d - 1 in
  yoe * 365 + yoe / 4 - yoe / 100 + doy.

(** Year, month and day of the day number [z] (day 0 is 1970-01-01). *)
Definition civilOfDays (z : Z) : Z * Z * Z :=
  let z := z + 719468 in
  let era := z / 146097 in
  let doe := z - era * 146097 in
  let '(yoe, m, d) := civilOfDoe doe in
  let y := yoe + era * 400 in
  (if m <=? 2 then y + 1 else y, m, d).

Definition daysOfCivil (y m d : Z) : Z :=
  let y := if m <=? 2 then y - 1 else y in
  let era := y / 400 in
  let yoe := y - era * 400 in
  era * 146097 + doeOfCivil yoe m d - 719468.

Definition Year (t : Time) : Z := fst (fst (civilOfDays (localDay t))).
Definition Month (t : Time) : Z := snd (fst (civilOfDays (localDay t))).
Definition Day (t : Time) : Z := snd (civilOfDays (localDay t)).

(** Hour, minute and second within the day, and nanosecond within the
    second, on the wall clock of the location. *)
Definition Clock (t : Time) : Z * Z * Z :=
  let s := localSeconds t mod 86400 in
  (s / 3600, (s mod 3600) / 60, s mod 60).

Definition Nanosecond_of (t : Time) : Z := unixNano t mod 1000000000.

(** [time.Date(year, month, day, hour, min, sec, nsec, loc)] for a
    location with a fixed offset. *)
Definition Date (year month day hour min sec nsec : Z) (l : Location) : Time :=
  let unix :=
    daysOfCivil year month day * 86400 + hour * 3600 + min * 60 + sec
    - offset l in
  {| unixNano := unix * 1000000000 + nsec; loc := l |}.

End time.

Example civilOfDays_epoch : time.civilOfDays 0%Z = (1970, 1, 1)%Z.
Proof. reflexivity. Qed.

Example civilOfDays_2024_02_29 : time.civilOfDays 19782%Z = (2024, 2, 29)%Z.
Proof. reflexivity. Qed.

Example daysOfCivil_2024_01_01 : time.daysOfCivil 2024%Z 1%Z 1%Z = 19723%Z.
Proof. reflexivity. Qed.

Example civilOfDays_before_epoch : time.civilOfDays (-1) = (1969, 12, 31)%Z.
Proof. reflexivity. Qed.

Example civilOfDays_2000_02_29 : time.civilOfDays 11016%Z = (2000, 2, 29)%Z.
Proof. reflexivity. Qed.

Example civilOfDays_2100_02_28 : time.civilOfDays 47540%Z = (2100, 2, 28)%Z.
Proof. reflexivity. Qed.

Example civilOfDays_2100_03_01 : time.civilOfDays 47541%Z = (2100, 3, 1)%Z.
Proof. reflexivity. Qed.

Example civilOfDays_2400_02_29 : time.civilOfDays 157113%Z = (2400, 2, 29)%Z.
Proof. reflexivity. Qed.

(** ** Errors

    The error values the program builds or passes on: [errors.New] and
    [fmt.Errorf] without [%w] give a [*errors.errorString], [fmt.Errorf]
    with one [%w] gives a [*fmt.wrapError] around its cause, and a library
    (HTTP transport, JSON decoder, chat client) returns errors of types of
    its own. *)
Inductive error : Type :=
| errorString (s : string)
| wrapError (msg : string) (err : error)
| libraryError (type : string) (msg : string).

(** The method [Error()]. *)
Definition Error (e : error) : string :=
  match e with
  | errorString s => s
  | wrapError msg _ => msg
  | libraryError _ msg => msg
  end.

(** [fmt.Errorf(prefix + "%w", err)]. *)
Definition Errorf_w (prefix : string) (err : error) : error :=
  wrapError (prefix ++ Error err) err.

Definition dynamicType (e : error) : string :=
  match e with
  | errorString _ => "*errors.errorString"
  | wrapError _ _ => "*fmt.wrapError"
  | libraryError type _ => type
  end.

(** What [errors.As] can tell of an error without reading its text: the
    dynamic types along its [Unwrap] chain.  (The package exports no
    sentinel value for [errors.Is] to compare with.) *)
Fixpoint errorKind (e : error) : list string :=
  match e with
  | wrapError _ err => dynamicType e :: errorKind err
  | _ => [dynamicType e]
  end.

(** ** The data of [check.go] *)

Definition timeoutSec : Z := 30.
Definition gapMinutes : Z := 30.
Definition startHour : Z := 18.
Definition startMin : Z := 0.

Module PendingTransaction.
Record t : Type := {
  Reference : string;
  IssuedDate : string;
  Operator : string;
  Vehicle : string;
  Licence : string;
  Location : string;
  Offence : string;
  Charge : string;
  Penalty : string;
  Status : string;
  Receipt : option string;
  PayDate : option string;
  PenDate : option string
}.
End PendingTransaction.

Module InspectionData.
Record t : Type := {
  ID : Z;
  VirNo : string;
  FinalResult : string;
  Inspector : string;
  Region : string;
  District : string;
  ProhibitionOnUse : string;
  Weight : string;
  Licence : string;
  DriverName : string;
  VehiclePassedFor : string;
  InspectionDate : string;
  ValidUntil : string;
  NoPlate : string;
  ReasonEN : string;
  Remarks : string
}.
End InspectionData.

Module APIResponse.
Record t : Type := {
  Status : string;
  TotalPendingAmount : option string;
  PendingTransactions : list PendingTransaction.t;
  InspectionData : list InspectionData.t
}.
End APIResponse.

(** ** [FormatResult] *)

(** [s[:n]] for [n <= len(s)]. *)
Definition slice_to (n : nat) (s : string) : string := substring 0 n s.

(** The body of the loop over the pending transactions, on the builder. *)
Definition offenceBlock (i : Z) (txn : PendingTransaction.t) (sb : string) : string :=
  let sb := sb ++ "*" ++ itoa (i + 1) ++ ".* " ++ PendingTransaction.Offence txn ++ nl in
  let sb := sb ++ "   📍 " ++ PendingTransaction.Location txn ++ nl in
  let sb := sb ++ "   💰 Charge: " ++ PendingTransaction.Charge txn
               ++ " | Penalty: " ++ PendingTransaction.Penalty txn ++ nl in
  let sb := sb ++ "   🔖 Ref: " ++ PendingTransaction.Reference txn ++ nl in
  let sb := sb ++ "   📅 Issued: " ++ PendingTransaction.IssuedDate txn ++ nl in
  let sb := sb ++ "   📋 Status: " ++ PendingTransaction.Status txn ++ nl ++ nl in
  sb.

(** The line of an inspection block that shows the two dates. *)
Definition dateLine (date validUntil : string) : string :=
  "   📅 " ++ date ++ " → " ++ validUntil ++ nl.

(** The body of the loop over the inspection records, on the builder. *)
Definition inspectionBlock (i : Z) (ins : InspectionData.t) (sb : string) : string :=
  let date := InspectionData.InspectionDate ins in
  let date := if (10 <? String.length date)%nat then slice_to 10 date else date in
  let validUntil := InspectionData.ValidUntil ins in
  let validUntil :=
    if (10 <? String.length validUntil)%nat then slice_to 10 validUntil
    else validUntil in
  let sb := sb ++ "*" ++ itoa (i + 1) ++ ".* " ++ InspectionData.ReasonEN ins
               ++ " — *" ++ InspectionData.FinalResult ins ++ "*" ++ nl in
  let sb := sb ++ dateLine date validUntil in
  let sb := sb ++ "   📍 " ++ InspectionData.Region ins ++ ", "
               ++ InspectionData.District ins ++ nl in
  let sb :=
    if negb (InspectionData.Remarks ins =? "")
    then sb ++ "   📝 " ++ InspectionData.Remarks ins ++ nl
    else sb in
  let sb := sb ++ nl in
  sb.

Definition reportHeader (registration : string) : string :=
  ("🚗 *RTOC Report for " ++ registration ++ "*" ++ nl)
  ++ "━━━━━━━━━━━━━━━━━━━━━" ++ nl.

Definition noResultsLine : string := "❌ No results found." ++ nl.

Definition noPendingLine : string := "✅ No pending offences." ++ nl ++ nl.

Definition FormatResult (registration : string) (data : APIResponse.t) : string :=
  let sb := "" in
  let sb := sb ++ "🚗 *RTOC Report for " ++ registration ++ "*" ++ nl in
  let sb := sb ++ "━━━━━━━━━━━━━━━━━━━━━" ++ nl in
  if negb (APIResponse.Status data =? "success") then
    let sb := sb ++ "❌ No results found." ++ nl in
    sb
  else
    let sb :=
      if (0 <? len (APIResponse.PendingTransactions data))%Z then
        let total :=
          match APIResponse.TotalPendingAmount data with
          | Some amount => amount
          | None => "N/A"
          end in
        let sb := sb ++ "⚠️ *Pending Offences: "
                     ++ itoa (len (APIResponse.PendingTransactions data))
                     ++ "* (Total: " ++ total ++ " TZS)" ++ nl ++ nl in
        range (APIResponse.PendingTransactions data) offenceBlock sb
      else
        sb ++ "✅ No pending offences." ++ nl ++ nl in
    let sb :=
      if (0 <? len (APIResponse.InspectionData data))%Z then
        let sb := sb ++ "🔍 *Inspection Records: "
                     ++ itoa (len (APIResponse.InspectionData data))
                     ++ "*" ++ nl ++ nl in
        range (APIResponse.InspectionData data) inspectionBlock sb
      else sb in
    sb.

(** ** [strings.TrimSpace], [strings.ToUpper] and [ParseVehicles]

    The functions of Go's library that work on runes outside ASCII, with the
    tables of package [unicode], are not part of this program and stay
    parameters. *)
Section ParseVehicles.

Variable TrimFunc_IsSpace : string -> string.
Variable TrimRightFunc_IsSpace : string -> string.
Variable Map_ToUpper : string -> string.

Definition TrimSpace (s : string) : string :=
  match strings.scanStart s with
  | strings.Fallback r => TrimFunc_IsSpace r
  | strings.Stop r =>
      match strings.scanStop r with
      | strings.Fallback r' => TrimRightFunc_IsSpace r'
      | strings.Stop r' => r'
      end
  end.

Definition ToUpper (s : string) : string :=
  if strings.isASCII s then strings.mapBytes strings.upperByte s
  else Map_ToUpper s.

Definition ParseVehicles (vehicles : string) : list string :=
  let parts := strings.Split vehicles "," in
  let result := [] in
  fold_left
    (fun result p =>
       let v := TrimSpace p in
       if negb (v =? "") then (result ++ [ToUpper v])%list else result)
    parts result.

(** The parser as the specification words it: split on commas, trim every
    segment, drop the segments that are empty then, uppercase the others. *)
Definition parse_vehicles_spec (vehicles : string) : list string :=
  map ToUpper
    (filter (fun v => negb (v =? ""))
       (map TrimSpace (strings.Split vehicles ","))).

End ParseVehicles.

(** ** The world outside the program, and what the program does to it *)

Module http.

Definition StatusOK : Z := 200.
Definition StatusTooManyRequests : Z := 429.

(** A response: its status code, and what decoding its body as an
    [APIResponse] gives (the body is read on status 200 only). *)
Record Response : Type := {
  StatusCode : Z;
  Body : error + APIResponse.t
}.

End http.

(** What [CheckVehicle] returns: an error, or the decoded response. *)
Definition lookup_result : Type := (error + APIResponse.t)%type.

Inductive event : Type :=
| Logged (level msg : string)
| Slept (d : time.Duration)
| Posted (url payload : string)
| Looked_up (registration : string) (result : lookup_result)
| Notified (text : string).

Section Program.

(** The state of everything outside the process. *)
Variable World : Type.

(** [json.Marshal] of the map with the one key [vehicle]. *)
Variable json_Marshal : string -> error + string.

(** [client.Post(url, "application/json", payload)] with the 30 second
    timeout: a transport error or a response. *)
Variable client_Post : string -> string -> World -> (error + http.Response) * World.

(** [bot.Send] of a Markdown message with the given text to the master chat. *)
Variable bot_Send : string -> World -> option error * World.

(** [time.Now()]. *)
Variable time_Now : World -> time.Time * World.

(** The state of a run: the world and the package variable [apiURL]. *)
Record State : Type := { world : World; apiURL : string }.

(** A computation returns a value, the next state and the events it caused,
    oldest first. *)
Definition M (A : Type) : Type := State -> A * State * list event.

Definition ret {A} (a : A) : M A := fun s => (a, s, []).

Definition bind {A B} (m : M A) (f : A -> M B) : M B :=
  fun s =>
    let '(a, s1, e1) := m s in
    let '(b, s2, e2) := f a s1 in
    (b, s2, (e1 ++ e2)%list).

Local Notation "x <- m ;; k" := (bind m (fun x => k))
  (at level 61, m at next level, right associativity).
Local Notation "m ;; k" := (bind m (fun _ => k))
  (at level 61, right associativity).

Definition result_of {A} (r : A * State * list event) : A := fst (fst r).
Definition state_of {A} (r : A * State * list event) : State := snd (fst r).
Definition events_of {A} (r : A * State * list event) : list event := snd r.

Definition emit (e : event) : M unit := fun s => (tt, s, [e]).

Definition on_world {A} (f : World -> A * World) : M A :=
  fun s =>
    let '(a, w) := f (world s) in
    (a, {| world := w; apiURL := apiURL s |}, []).

Definition slog_Info (msg : string) : M unit := emit (Logged "INFO" msg).
Definition slog_Error (msg : string) : M unit := emit (Logged "ERROR" msg).

Definition time_Sleep (d : time.Duration) : M unit := emit (Slept d).

Definition SetAPIURL (url : string) : M unit :=
  fun s => (tt, {| world := world s; apiURL := url |}, []).

Definition read_apiURL : M string := fun s => (apiURL s, s, []).

(** [CheckVehicle]; the call and what it returns are recorded as one event. *)
Definition CheckVehicle (registration : string) : M lookup_result :=
  result <-
    match json_Marshal registration with
    | inl err => ret (inl (Errorf_w "marshal payload: " err))
    | inr payload =>
        url <- read_apiURL ;;
        emit (Posted url payload) ;;
        posted <- on_world (client_Post url payload) ;;
        match posted with
        | inl err => ret (inl (Errorf_w "post request: " err))
        | inr resp =>
            if (http.StatusCode resp =? http.StatusOK)%Z then
              match http.Body resp with
              | inl err => ret (inl (Errorf_w "decode response: " err))
              | inr result => ret (inr result)
              end
            else if (http.StatusCode resp =? http.StatusTooManyRequests)%Z then
              ret (inl (errorString
                          "rate limited (429): too many requests, try again later"))
            else
              ret (inl (errorString
                          ("unexpected status code: " ++ itoa (http.StatusCode resp))))
        end
    end ;;
  emit (Looked_up registration result) ;;
  ret result.

(** The status code the lookup service answers with when [registration] is
    looked up in state [s], if the request is sent and answered. *)
Definition answeredStatus (registration : string) (s : State) : option Z :=
  match json_Marshal registration with
  | inl _ => None
  | inr payload =>
      match fst (client_Post (apiURL s) payload (world s)) with
      | inl _ => None
      | inr resp => Some (http.StatusCode resp)
      end
  end.

(** [NotifyFunc]: a text goes out, an error may come back. *)
Definition NotifyFunc : Type := string -> World -> option error * World.

Definition call_notify (notify : NotifyFunc) (text : string) : M (option error) :=
  emit (Notified text) ;;
  on_world (notify text).

(** [for i, x := range l { body }] for a body with effects. *)
Fixpoint for_range_from {A} (i : Z) (l : list A) (body : Z -> A -> M unit) : M unit :=
  match l with
  | [] => ret tt
  | x :: r => body i x ;; for_range_from (i + 1) r body
  end.

Definition for_range {A} (l : list A) (body : Z -> A -> M unit) : M unit :=
  for_range_from 0 l body.

Definition failureText (reg : string) (err : error) : string :=
  "❌ Failed to check *" ++ reg ++ "*: " ++ Error err.

(** The body of the loop of [checkAllVehicles]. *)
Definition checkAllVehicles_body (notify : NotifyFunc) (i : Z) (reg : string) : M unit :=
  (if (0 <? i)%Z then
     slog_Info "waiting before next vehicle" ;;
     time_Sleep (gapMinutes * time.Minute)%Z
   else ret tt) ;;
  slog_Info "checking vehicle" ;;
  checked <- CheckVehicle reg ;;
  match checked with
  | inl err =>
      slog_Error "failed to check vehicle" ;;
      let errMsg := failureText reg err in
      notifyErr <- call_notify notify errMsg ;;
      match notifyErr with
      | Some _ => slog_Error "failed to send error notification"
      | None => ret tt
      end
  | inr data =>
      let msg := FormatResult reg data in
      err <- call_notify notify msg ;;
      match err with
      | Some _ => slog_Error "failed to send notification"
      | None => ret tt
      end
  end.

Definition checkAllVehicles (vehicles : list string) (notify : NotifyFunc) : M unit :=
  slog_Info "starting daily vehicle check" ;;
  for_range vehicles (checkAllVehicles_body notify) ;;
  slog_Info "daily vehicle check completed".

(** The zone of the schedule. *)
Definition eat : time.Location := time.FixedZone "EAT" (3 * 60 * 60).

(** The trigger that one turn of the loop of [StartScheduler] computes from
    the current time. *)
Definition nextRun (now : time.Time) : time.Time :=
  let now := time.In now eat in
  let next :=
    time.Date (time.Year now) (time.Month now) (time.Day now)
      startHour startMin 0 0 eat in
  if time.After now next then time.Add next (24 * time.Hour)%Z else next.

(** One turn of the loop of [StartScheduler]. *)
Definition StartScheduler_turn (vehicles : list string) (notify : NotifyFunc) : M unit :=
  now <- on_world time_Now ;;
  let next := nextRun now in
  later <- on_world time_Now ;;
  let waitDuration := time.Sub next later in
  slog_Info "next scheduled run" ;;
  time_Sleep waitDuration ;;
  checkAllVehicles vehicles notify.

(** [StartScheduler], cut after [turns] turns of its endless loop. *)
Fixpoint StartScheduler_loop (turns : nat) (vehicles : list string)
    (notify : NotifyFunc) : M unit :=
  match turns with
  | O => ret tt
  | S k =>
      StartScheduler_turn vehicles notify ;;
      StartScheduler_loop k vehicles notify
  end.

Definition StartScheduler (turns : nat) (vehicles : list string)
    (notify : NotifyFunc) : M unit :=
  slog_Info "scheduler started" ;;
  StartScheduler_loop turns vehicles notify.

(** The goroutine that [main] in [cmd/bot/bot.go] starts for [/check]. *)
Definition onDemand_body (i : Z) (reg : string) : M unit :=
  (if (0 <? i)%Z then time_Sleep (10 * time.Minute)%Z else ret tt) ;;
  checked <- CheckVehicle reg ;;
  let text :=
    match checked with
    | inl err => failureText reg err
    | inr data => FormatResult reg data
    end in
  err <- call_notify bot_Send text ;;
  match err with
  | Some _ => slog_Error "failed to send check result"
  | None => ret tt
  end.

Definition onDemandCheck (registrations : list string) : M unit :=
  for_range registrations onDemand_body.

End Program.

Arguments ret {World A} a.
Arguments bind {World A B} m f.
Arguments result_of {World A} r.
Arguments state_of {World A} r.
Arguments events_of {World A} r.
Arguments emit {World} e.
Arguments on_world {World A} f.
Arguments slog_Info {World} msg.
Arguments slog_Error {World} msg.
Arguments time_Sleep {World} d.
Arguments SetAPIURL {World} url.
Arguments read_apiURL {World}.
Arguments CheckVehicle {World} json_Marshal client_Post registration.
Arguments call_notify {World} notify text.
Arguments answeredStatus {World} json_Marshal client_Post registration s.
Arguments for_range_from {World A} i l body.
Arguments for_range {World A} l body.
Arguments checkAllVehicles_body {World} json_Marshal client_Post notify i reg.
Arguments checkAllVehicles {World} json_Marshal client_Post vehicles notify.
Arguments StartScheduler_turn {World} json_Marshal client_Post time_Now vehicles notify.
Arguments StartScheduler_loop {World} json_Marshal client_Post time_Now turns vehicles notify.
Arguments StartScheduler {World} json_Marshal client_Post time_Now turns vehicles notify.
Arguments onDemand_body {World} json_Marshal client_Post bot_Send i reg.
Arguments onDemandCheck {World} json_Marshal client_Post bot_Send registrations.

(** Today's 18:00 in the zone of the schedule, as [StartScheduler] builds it. *)
Definition todayAtStart (now : time.Time) : time.Time :=
  let now := time.In now eat in
  time.Date (time.Year now) (time.Month now) (time.Day now)
    startHour startMin 0 0 eat.

(** ** Readings of a trace *)

(** The shape of a sequence of lookups: which vehicle is looked up, and
    how long the program sleeps in between. *)
Inductive step : Type :=
| Wait (d : time.Duration)
| Lookup (registration : string).

Definition schedule (evs : list event) : list step :=
  flat_map (fun e =>
              match e with
              | Slept d => [Wait d]
              | Looked_up reg _ => [Lookup reg]
              | _ => []
              end) evs.

Definition lookups (evs : list event) : list (string * lookup_result) :=
  flat_map (fun e =>
              match e with
              | Looked_up reg r => [(reg, r)]
              | _ => []
              end) evs.

Definition sleeps (evs : list event) : list time.Duration :=
  flat_map (fun e => match e with Slept d => [d] | _ => [] end) evs.

Definition notifications (evs : list event) : list string :=
  flat_map (fun e => match e with Notified text => [text] | _ => [] end) evs.

(** The error of [CheckVehicle] on status 429. *)
Definition rateLimited : error :=
  errorString "rate limited (429): too many requests, try again later".

(** What the operator is told about one lookup. *)
Definition report (looked : string * lookup_result) : string :=
  match snd looked with
  | inl err => failureText (fst looked) err
  | inr data => FormatResult (fst looked) data
  end.

Definition checks (plan : list step) : list string :=
  flat_map (fun st => match st with Lookup reg => [reg] | Wait _ => [] end) plan.

Definition waits (plan : list step) : list time.Duration :=
  flat_map (fun st => match st with Wait d => [d] | Lookup _ => [] end) plan.

(** The schedule of a loop that sleeps for [gap] whenever its index is
    positive and then looks the vehicle up, started at index [i]. *)
Fixpoint paced (gap : time.Duration) (i : Z) (vehicles : list string) : list step :=
  match vehicles with
  | [] => []
  | reg :: rest =>
      ((if (0 <? i)%Z then [Wait gap] else []) ++ Lookup reg :: paced gap (i + 1) rest)%list
  end.

(** One lookup per vehicle, in the order of the list, and a cooldown of
    [gap] before each but the first. *)
Definition cooldown_plan (gap : time.Duration) (vehicles : list string) : list step :=
  match vehicles with
  | [] => []
  | reg :: rest => Lookup reg :: flat_map (fun r => [Wait gap; Lookup r]) rest
  end.

(** ** A scripted world, to run the program on

    The answers of the lookup service and of the chat service are read off
    two lists, in order; an exhausted list answers with an error.  The clock
    advances over a list of instants the same way. *)
Module Script.

Record t : Type := {
  answers : list (error + http.Response);
  deliveries : list (option error);
  clock : list Z
}.

Definition quote : string := String "034" "".

(** The JSON object with the one key [vehicle], for a registration that
    needs no escaping. *)
Definition marshal (registration : string) : error + string :=
  inr ("{" ++ quote ++ "vehicle" ++ quote ++ ":" ++ quote ++ registration
           ++ quote ++ "}").

Definition post (url payload : string) (w : t) : (error + http.Response) * t :=
  match answers w with
  | [] => (inl (libraryError "*url.Error" "connection refused"), w)
  | a :: rest =>
      (a, {| answers := rest; deliveries := deliveries w; clock := clock w |})
  end.

Definition send (text : string) (w : t) : option error * t :=
  match deliveries w with
  | [] => (Some (libraryError "*tgbotapi.Error" "Bad Gateway"), w)
  | d :: rest =>
      (d, {| answers := answers w; deliveries := rest; clock := clock w |})
  end.

Definition now (w : t) : time.Time * t :=
  match clock w with
  | [] => ({| time.unixNano := 0; time.loc := time.FixedZone "UTC" 0 |}, w)
  | t :: rest =>
      ({| time.unixNano := t; time.loc := time.FixedZone "UTC" 0 |},
       {| answers := answers w; deliveries := deliveries w; clock := rest |})
  end.

Definition start (answers : list (error + http.Response))
    (deliveries : list (option error)) : State t :=
  {| world := {| answers := answers; deliveries := deliveries; clock := [] |};
     apiURL := "https://url.example.com/api/OffenceCheck" |}.

Definition answer (status : Z) (body : error + APIResponse.t) : error + http.Response :=
  inr {| http.StatusCode := status; http.Body := body |}.

Definition noRecords : APIResponse.t :=
  {| APIResponse.Status := "success";
     APIResponse.TotalPendingAmount := None;
     APIResponse.PendingTransactions := [];
     APIResponse.InspectionData := [] |}.

Definition CheckVehicle := CheckVehicle marshal post.
Definition checkAllVehicles := checkAllVehicles marshal post.
Definition onDemandCheck := onDemandCheck marshal post send.

End Script.

(** ** Sample responses *)
Module Samples.

Definition offence : PendingTransaction.t :=
  {| PendingTransaction.Reference := "R1";
     PendingTransaction.IssuedDate := "2024-01-01";
     PendingTransaction.Operator := "";
     PendingTransaction.Vehicle := "T945CAP";
     PendingTransaction.Licence := "";
     PendingTransaction.Location := "Dar";
     PendingTransaction.Offence := "Speeding";
     PendingTransaction.Charge := "10000";
     PendingTransaction.Penalty := "20000";
     PendingTransaction.Status := "UNPAID";
     PendingTransaction.Receipt := None;
     PendingTransaction.PayDate := None;
     PendingTransaction.PenDate := None |}.

Definition inspection : InspectionData.t :=
  {| InspectionData.ID := 7;
     InspectionData.VirNo := "VIR-7";
     InspectionData.FinalResult := "PASS";
     InspectionData.Inspector := "";
     InspectionData.Region := "Dar es Salaam";
     InspectionData.District := "Ilala";
     InspectionData.ProhibitionOnUse := "NO";
     InspectionData.Weight := "";
     InspectionData.Licence := "";
     InspectionData.DriverName := "";
     InspectionData.VehiclePassedFor := "";
     InspectionData.InspectionDate := "2024-03-05T10:00:00Z";
     InspectionData.ValidUntil := "2025-03-05T10:00:00Z";
     InspectionData.NoPlate := "T945CAP";
     InspectionData.ReasonEN := "Annual inspection";
     InspectionData.Remarks := "" |}.

(** A successful response with one offence and one inspection record. *)
Definition withRecords : APIResponse.t :=
  {| APIResponse.Status := "success";
     APIResponse.TotalPendingAmount := Some "20000";
     APIResponse.PendingTransactions := [offence];
     APIResponse.InspectionData := [inspection] |}.

(** The same records under a status that is not the success marker. *)
Definition failed : APIResponse.t :=
  {| APIResponse.Status := "error";
     APIResponse.TotalPendingAmount := Some "20000";
     APIResponse.PendingTransactions := [offence];
     APIResponse.InspectionData := [inspection] |}.

End Samples.

(** A loop body only appends to the builder. *)
Definition appends {A} (body : Z -> A -> string -> string) : Prop :=
  forall i x sb, body i x sb = sb ++ body i x "".

(** ** Two runs on the scripted world *)

Definition threeVehicles : list string := ["T945CAP"; "T267DFF"; "T111AAA"].

(** The first lookup is rate limited, the second succeeds, the third gets
    no answer; no notification can be delivered. *)
Definition badDay : State Script.t :=
  Script.start
    [Script.answer 429 (inl (libraryError "*json.SyntaxError" "unexpected end of JSON input"));
     Script.answer 200 (inr Script.noRecords)]
    [Some (libraryError "*tgbotapi.Error" "Too Many Requests")].

Definition answering (status : Z) : State Script.t :=
  Script.start [Script.answer status (inr Script.noRecords)] [].


(** ** More readings of a report and of a trace *)

(** A date as an inspection block shows it. *)
Definition shownDate (s : string) : string :=
  if (10 <? String.length s)%nat then slice_to 10 s else s.

(** The elements of a list with their indices, as a [range] loop meets
    them. *)
Fixpoint indexed_from {A} (i : Z) (l : list A) : list (Z * A) :=
  match l with
  | [] => []
  | x :: r => (i, x) :: indexed_from (i + 1) r
  end.

(** What a loop body writes for each element, one after the other. *)
Definition blocks {A} (body : Z -> A -> string -> string) (l : list A) : string :=
  String.concat "" (map (fun ix => body (fst ix) (snd ix) "") (indexed_from 0 l)).

(** The part of a report on pending offences, as the specification words
    it: the "no pending offences" line, or the count and total followed by
    one numbered block per offence. *)
Definition pendingPart (data : APIResponse.t) : string :=
  match APIResponse.PendingTransactions data with
  | [] => noPendingLine
  | txns =>
      "⚠️ *Pending Offences: " ++ itoa (len txns) ++ "* (Total: "
        ++ match APIResponse.TotalPendingAmount data with
           | Some amount => amount
           | None => "N/A"
           end
        ++ " TZS)" ++ nl ++ nl ++ blocks offenceBlock txns
  end.

(** The part of a report on inspections: nothing, or the count followed by
    one numbered block per record. *)
Definition inspectionPart (data : APIResponse.t) : string :=
  match APIResponse.InspectionData data with
  | [] => ""
  | records =>
      "🔍 *Inspection Records: " ++ itoa (len records) ++ "*" ++ nl ++ nl
        ++ blocks inspectionBlock records
  end.

(** [s] begins with [p]. *)
Definition StartsWith (p s : string) : Prop := exists rest, s = p ++ rest.

(** The requests of a trace: URL and payload. *)
Definition posts (evs : list event) : list (string * string) :=
  flat_map (fun e => match e with Posted url payload => [(url, payload)] | _ => [] end) evs.

Definition isSpaceOrComma (c : ascii) : bool :=
  strings.asciiSpace c || Ascii.eqb c ",".

Fixpoint sumZ (l : list Z) : Z :=
  match l with
  | [] => 0%Z
  | x :: r => (x + sumZ r)%Z
  end.

(** ** The command loop of [cmd/bot/bot.go] *)

Definition start_txt : string :=
  "Use /check to check for vehicle road traffic offences or wait for vehicle road traffic offences notifications for listed vehicles. Type /stop to stop receiving notifications`".

Definition unknown_cmd : string := "I don't know that command".

Definition tabs : string := String "009" (String "009" (String "009" "")).

Definition help_txt : string :=
  nl ++ tabs ++ "Commands for this @rtocbot are:" ++ nl
     ++ tabs ++ nl
     ++ tabs ++ "/start  start the bot" ++ nl
     ++ tabs ++ "/check <REG>  check a specific vehicle e.g. /check T945CEP".

(** What the chat library tells of a message: the chat it came from,
    whether it is a command, and the results of its methods [Command] and
    [CommandArguments]. *)
Module Message.
Record t : Type := {
  ChatID : Z;
  IsCommand : bool;
  Command : string;
  CommandArguments : string
}.
End Message.

(** An update; [None] is an update whose [Message] is [nil]. *)
Definition Update : Type := option Message.t.

Section Bot.

Variable World : Type.
Variable json_Marshal : string -> error + string.
Variable client_Post : string -> string -> World -> (error + http.Response) * World.

(** [bot.Send] of a message to the master chat, with its parse mode and
    its text. *)
Variable bot_SendMessage : string -> string -> World -> option error * World.

Variable TrimFunc_IsSpace : string -> string.
Variable TrimRightFunc_IsSpace : string -> string.
Variable Map_ToUpper : string -> string.

Variable masterID : Z.
Variable vehicleList : list string.

Local Notation "x <- m ;; k" := (bind m (fun x => k))
  (at level 61, m at next level, right associativity).
Local Notation "m ;; k" := (bind m (fun _ => k))
  (at level 61, right associativity).

(** The statement [if _, err := bot.Send(msg); err != nil { slog.Error(...) }]. *)
Definition sendOrLog (parseMode text : string) : M World unit :=
  err <- call_notify (bot_SendMessage parseMode) text ;;
  match err with
  | Some _ => slog_Error "failed to send msg"
  | None => ret tt
  end.

(** The registrations a [/check] command asks for. *)
Definition checkRegistrations (arguments : string) : list string :=
  let args := TrimSpace TrimFunc_IsSpace TrimRightFunc_IsSpace arguments in
  if negb (args =? "") then [ToUpper Map_ToUpper args] else vehicleList.

(** The body of the loop over the updates.  It returns the registrations it
    starts a goroutine for, if it starts one. *)
Definition handleUpdate (update : Update) : M World (option (list string)) :=
  match update with
  | None => ret None
  | Some message =>
      if negb (Message.ChatID message =? masterID)%Z then ret None
      else if negb (Message.IsCommand message) then ret None
      else if Message.Command message =? "start" then
        sendOrLog "" start_txt ;; ret None
      else if Message.Command message =? "help" then
        sendOrLog "" help_txt ;; ret None
      else if Message.Command message =? "check" then
        let regs := checkRegistrations (Message.CommandArguments message) in
        sendOrLog "Markdown"
          ("🔎 Checking " ++ itoa (len regs) ++ " vehicle(s)...") ;;
        ret (Some regs)
      else
        sendOrLog "" unknown_cmd ;; ret None
  end.

(** The loop over the updates: the goroutines it starts, in order. *)
Fixpoint serve (updates : list Update) : M World (list (list string)) :=
  match updates with
  | [] => ret []
  | update :: rest =>
      started <- handleUpdate update ;;
      more <- serve rest ;;
      ret (match started with
           | Some regs => regs :: more
           | None => more
           end)
  end.

(** The goroutine that an update makes the loop start, read off the update
    alone. *)
Definition startedBy (update : Update) : option (list string) :=
  match update with
  | None => None
  | Some message =>
      if (Message.ChatID message =? masterID)%Z && Message.IsCommand message
         && (Message.Command message =? "check")
      then Some (checkRegistrations (Message.CommandArguments message))
      else None
  end.

(** The fixed text that answers a command other than [check]. *)
Definition replyTo (command : string) : string :=
  if command =? "start" then start_txt
  else if command =? "help" then help_txt
  else unknown_cmd.

(** The goroutine of a [/check] command. *)
Definition checkGoroutine (registrations : list string) : M World unit :=
  onDemandCheck json_Marshal client_Post (bot_SendMessage "Markdown") registrations.

End Bot.

Arguments sendOrLog {World} bot_SendMessage parseMode text.
Arguments handleUpdate {World} bot_SendMessage TrimFunc_IsSpace TrimRightFunc_IsSpace
  Map_ToUpper masterID vehicleList update.
Arguments serve {World} bot_SendMessage TrimFunc_IsSpace TrimRightFunc_IsSpace
  Map_ToUpper masterID vehicleList updates.
Arguments checkGoroutine {World} json_Marshal client_Post bot_SendMessage registrations.

(** Updates that the command loop acts on: a command from the master chat. *)
Definition fromMaster (masterID : Z) (update : Update) : bool :=
  match update with
  | None => false
  | Some message => (Message.ChatID message =? masterID)%Z && Message.IsCommand message
  end.

(** ** More sample data *)
Module MoreSamples.

(** A record with a date of exactly 10 bytes, a shorter one, and remarks. *)
Definition shortDated : InspectionData.t :=
  {| InspectionData.ID := 8;
     InspectionData.VirNo := "VIR-8";
     InspectionData.FinalResult := "FAIL";
     InspectionData.Inspector := "";
     InspectionData.Region := "Arusha";
     InspectionData.District := "Meru";
     InspectionData.ProhibitionOnUse := "YES";
     InspectionData.Weight := "";
     InspectionData.Licence := "";
     InspectionData.DriverName := "";
     InspectionData.VehiclePassedFor := "";
     InspectionData.InspectionDate := "2024-03-05";
     InspectionData.ValidUntil := "n/a";
     InspectionData.NoPlate := "T267DFF";
     InspectionData.ReasonEN := "Roadside check";
     InspectionData.Remarks := "Brake lights" |}.

(** Two offences without a total, and two inspection records. *)
Definition noTotal : APIResponse.t :=
  {| APIResponse.Status := "success";
     APIResponse.TotalPendingAmount := None;
     APIResponse.PendingTransactions := [Samples.offence; Samples.offence];
     APIResponse.InspectionData := [Samples.inspection; shortDated] |}.

End MoreSamples.

(** The request that looking [registration] up sends to [url]: none when
    the payload cannot be built. *)
Definition requestOf (json_Marshal : string -> error + string) (url registration : string)
    : list (string * string) :=
  match json_Marshal registration with
  | inl _ => []
  | inr payload => [(url, payload)]
  end.

(** A function applied to what a scan of [TrimSpace] leaves. *)
Definition mapScan (f : string -> string) (sc : strings.scan) : strings.scan :=
  match sc with
  | strings.Stop r => strings.Stop (f r)
  | strings.Fallback r => strings.Fallback (f r)
  end.

Section NormalizedRegistration.

Variable TrimFunc_IsSpace : string -> string.
Variable TrimRightFunc_IsSpace : string -> string.
Variable Map_ToUpper : string -> string.

(** A registration as the parser leaves it. *)
Definition normalizedRegistration (v : string) : Prop :=
  v <> "" /\ ~ In ","%char (bytes v) /\ strings.isASCII v = true
  /\ TrimSpace TrimFunc_IsSpace TrimRightFunc_IsSpace v = v
  /\ ToUpper Map_ToUpper v = v.

End NormalizedRegistration.

(** The instant of 18:00 in the zone of the schedule on local day [k]. *)
Definition startOfDay (k : Z) : time.Time :=
  {| time.unixNano := ((k * 86400 + 54000) * 1000000000)%Z; time.loc := eat |}.

Section Clock.

Variable World : Type.
Variable time_Now : World -> time.Time * World.

(** The two readings of the clock in one turn of the loop. *)
Definition firstReading (s : State World) : time.Time := fst (time_Now (world World s)).

Definition secondReading (s : State World) : time.Time :=
  fst (time_Now (snd (time_Now (world World s)))).

End Clock.

Arguments firstReading {World} time_Now s.
Arguments secondReading {World} time_Now s.

(** ** A chat to run the command loop on *)
Module BotSamples.

Definition master : Z := 7312133.

Definition command (chat : Z) (name arguments : string) : Update :=
  Some {| Message.ChatID := chat;
          Message.IsCommand := true;
          Message.Command := name;
          Message.CommandArguments := arguments |}.

Definition message (chat : Z) (name arguments : string) : Message.t :=
  {| Message.ChatID := chat;
     Message.IsCommand := true;
     Message.Command := name;
     Message.CommandArguments := arguments |}.

(** The chat service of the scripted world, for either parse mode. *)
Definition send (parseMode : string) : string -> Script.t -> option error * Script.t :=
  Script.send.

Definition handleUpdate :=
  handleUpdate send (fun s => s) (fun s => s) (fun s => s) master threeVehicles.

Definition checkGoroutine := checkGoroutine Script.marshal Script.post send.

End BotSamples.

(** ** The order of sleeps, lookups and notifications *)

(** What a sequencer does that the operator or the lookup service can see:
    it sleeps, it looks a vehicle up (with what the lookup returned), it
    sends a text. *)
Inductive mark : Type :=
| Waited (d : time.Duration)
| Asked (registration : string) (result : lookup_result)
| Told (text : string).

Definition marks (evs : list event) : list mark :=
  flat_map (fun e =>
              match e with
              | Slept d => [Waited d]
              | Looked_up reg r => [Asked reg r]
              | Notified text => [Told text]
              | _ => []
              end) evs.

(** One round per lookup: the lookup, then the text [say] about it; a sleep
    of [gap] comes before every round but the first. *)
Fixpoint rounds_from (gap : time.Duration) (say : string -> lookup_result -> string)
    (first : bool) (looked : list (string * lookup_result)) : list mark :=
  match looked with
  | [] => []
  | l :: rest =>
      ((if first then [] else [Waited gap])
       ++ Asked (fst l) (snd l) :: Told (say (fst l) (snd l))
            :: rounds_from gap say false rest)%list
  end.

(** The text about one lookup, as the specification words it: the failure
    line with the text of the error, or the formatted report. *)
Definition toldText (reg : string) (r : lookup_result) : string :=
  match r with
  | inl err => "❌ Failed to check *" ++ reg ++ "*: " ++ Error err
  | inr data => FormatResult reg data
  end.

(** ** Characters and bytes *)

(** A byte that continues a character in UTF-8. *)
Definition isContinuation (c : ascii) : bool :=
  ((128 <=? strings.byte c) && (strings.byte c <? 192))%N.

(** The number of characters of a text in UTF-8. *)
Fixpoint charLength (s : string) : nat :=
  match s with
  | "" => 0
  | String c r => if isContinuation c then charLength r else S (charLength r)
  end.

(** The first [n] characters of a text in UTF-8. *)
Fixpoint takeChars (n : nat) (s : string) : string :=
  match s with
  | "" => ""
  | String c r =>
      if isContinuation c then String c (takeChars n r)
      else match n with
           | O => ""
           | S k => String c (takeChars k r)
           end
  end.

(** [s] occurs in [t], decided. *)
Fixpoint occurs (s t : string) : bool :=
  prefix s t
  || match t with
     | "" => false
     | String _ r => occurs s r
     end.

Module Accented.

(** Dates of 11 characters and 12 bytes: the tenth character takes two
    bytes. *)
Definition inspectionDate : string := "2024-03-0é5".
Definition validUntil : string := "2025-03-0é5".

Definition inspection : InspectionData.t :=
  {| InspectionData.ID := 9;
     InspectionData.VirNo := "VIR-9";
     InspectionData.FinalResult := "PASS";
     InspectionData.Inspector := "";
     InspectionData.Region := "Dar es Salaam";
     InspectionData.District := "Ilala";
     InspectionData.ProhibitionOnUse := "NO";
     InspectionData.Weight := "";
     InspectionData.Licence := "";
     InspectionData.DriverName := "";
     InspectionData.VehiclePassedFor := "";
     InspectionData.InspectionDate := inspectionDate;
     InspectionData.ValidUntil := validUntil;
     InspectionData.NoPlate := "T945CAP";
     InspectionData.ReasonEN := "Annual inspection";
     InspectionData.Remarks := "" |}.

Definition response : APIResponse.t :=
  {| APIResponse.Status := "success";
     APIResponse.TotalPendingAmount := None;
     APIResponse.PendingTransactions := [];
     APIResponse.InspectionData := [inspection] |}.

End Accented.
(** ** The calendar: a day number is recovered from its date *)

Section Calendar.

Local Open Scope Z_scope.

Ltac quotient q x k :=
  pose proof (Z.div_mod x k ltac:(lia));
  pose proof (Z.mod_pos_bound x k ltac:(lia));
  unfold q.

(** Within an era the year of the era is below 400, the month and the day
    are those of a date, and the date gives the day of the era back. *)
Lemma civilOfDoe_spec (doe : Z) :
  0 <= doe < 146097 ->
  let '(yoe, m, d) := time.civilOfDoe doe in
  0 <= yoe < 400 /\ time.doeOfCivil yoe m d = doe /\ 1 <= m <= 12 /\ 1 <= d <= 31.
Proof.
  intros Hdoe. unfold time.civilOfDoe, time.doeOfCivil.
  set (c0 := doe / 36524).
  assert (Hc0 : 0 <= c0 <= 4 /\ 36524 * c0 <= doe < 36524 * c0 + 36524)
    by (quotient c0 doe 36524; lia).
  set (q0 := c0 / 4).
  assert (Hq0 : (c0 <= 3 /\ q0 = 0) \/ (c0 = 4 /\ q0 = 1))
    by (quotient q0 c0 4; lia).
  set (c := c0 - q0). assert (Hc : 0 <= c <= 3) by lia.
  set (d1 := doe - 36524 * c). assert (Hd1 : 0 <= d1 <= 36524) by lia.
  set (n4 := d1 / 1461).
  assert (Hn4 : 0 <= n4 <= 24 /\ 1461 * n4 <= d1 < 1461 * n4 + 1461)
    by (quotient n4 d1 1461; lia).
  set (d2 := d1 - 1461 * n4). assert (Hd2 : 0 <= d2 <= 1460) by lia.
  set (y0 := d2 / 365).
  assert (Hy0 : 0 <= y0 <= 4 /\ 365 * y0 <= d2 < 365 * y0 + 365)
    by (quotient y0 d2 365; lia).
  set (r0 := y0 / 4).
  assert (Hr0 : (y0 <= 3 /\ r0 = 0) \/ (y0 = 4 /\ r0 = 1))
    by (quotient r0 y0 4; lia).
  set (y := y0 - r0). assert (Hy : 0 <= y <= 3) by lia.
  set (doy := d2 - 365 * y). assert (Hdoy : 0 <= doy <= 365) by lia.
  set (yoe := 100 * c + 4 * n4 + y).
  set (mp := (5 * doy + 2) / 153).
  assert (Hmp : 0 <= mp <= 11 /\ 153 * mp <= 5 * doy + 2 < 153 * mp + 153)
    by (quotient mp (5 * doy + 2) 153; lia).
  set (e := (153 * mp + 2) / 5).
  assert (He : 5 * e <= 153 * mp + 2 < 5 * e + 5)
    by (quotient e (153 * mp + 2) 5; lia).
  set (m := if mp <? 10 then mp + 3 else mp - 9).
  assert (Hm : 1 <= m <= 12 /\ (if 2 <? m then m - 3 else m + 9) = mp).
  { unfold m. destruct (Z.ltb_spec mp 10).
    - destruct (Z.ltb_spec 2 (mp + 3)); lia.
    - destruct (Z.ltb_spec 2 (mp - 9)); lia. }
  destruct Hm as [Hm Hback]. rewrite Hback. fold e.
  assert (Hq4 : yoe / 4 = 25 * c + n4)
    by (unfold yoe; symmetry; apply (Z.div_unique _ _ _ y); lia).
  assert (Hq100 : yoe / 100 = c)
    by (unfold yoe; symmetry; apply (Z.div_unique _ _ _ (4 * n4 + y)); lia).
  rewrite Hq4, Hq100.
  repeat split; lia.
Qed.

Lemma era_of_day (z : Z) :
  0 <= z - z / 146097 * 146097 < 146097.
Proof.
  pose proof (Z.div_mod z 146097 ltac:(lia)).
  pose proof (Z.mod_pos_bound z 146097 ltac:(lia)). lia.
Qed.

Lemma daysOfCivil_civilOfDays (z : Z) :
  let '(y, m, d) := time.civilOfDays z in time.daysOfCivil y m d = z.
Proof.
  unfold time.civilOfDays.
  set (z' := z + 719468).
  set (era := z' / 146097).
  set (doe := z' - era * 146097).
  pose proof (civilOfDoe_spec doe (era_of_day z')) as Hok.
  destruct (time.civilOfDoe doe) as [[yoe m] d].
  destruct Hok as (Hy & Hback & _).
  unfold time.daysOfCivil.
  assert (Heq : (if m <=? 2
                 then (if m <=? 2 then yoe + era * 400 + 1 else yoe + era * 400) - 1
                 else (if m <=? 2 then yoe + era * 400 + 1 else yoe + era * 400))
                = yoe + era * 400)
    by (destruct (m <=? 2); lia).
  rewrite Heq.
  assert (Hera : (yoe + era * 400) / 400 = era).
  { rewrite Z.div_add by lia. rewrite Z.div_small by lia. lia. }
  rewrite Hera.
  replace (yoe + era * 400 - era * 400) with yoe by lia.
  rewrite Hback. unfold doe, z'. lia.
Qed.

Lemma civil_date_in_range (z : Z) :
  let '(y, m, d) := time.civilOfDays z in 1 <= m <= 12 /\ 1 <= d <= 31.
Proof.
  unfold time.civilOfDays.
  set (z' := z + 719468).
  set (era := z' / 146097).
  set (doe := z' - era * 146097).
  pose proof (civilOfDoe_spec doe (era_of_day z')) as Hok.
  destruct (time.civilOfDoe doe) as [[yoe m] d].
  tauto.
Qed.

End Calendar.

(** ** Facts about the library functions *)

Lemma Split_nonempty (s : string) (sep : ascii) : strings.Split s sep <> [].
Proof.
  induction s as [|c r IH]; simpl; [discriminate|].
  destruct (Ascii.eqb c sep); [discriminate|].
  destruct (strings.Split r sep); [contradiction|discriminate].
Qed.

Lemma concat_cons (sep x y : string) (l : list string) :
  String.concat sep (x :: y :: l) = x ++ sep ++ String.concat sep (y :: l).
Proof. reflexivity. Qed.

(** Joining the pieces with the separator gives the string back. *)
Lemma Split_concat (s : string) (sep : ascii) :
  String.concat (String sep "") (strings.Split s sep) = s.
Proof.
  induction s as [|c r IH]; [reflexivity|].
  pose proof (Split_nonempty r sep) as Hn.
  cbn [strings.Split]. destruct (Ascii.eqb_spec c sep) as [->|Hne].
  - destruct (strings.Split r sep) as [|p ps]; [contradiction|].
    rewrite concat_cons, IH. reflexivity.
  - destruct (strings.Split r sep) as [|p ps]; [contradiction|].
    destruct ps as [|q qs].
    + cbn [String.concat] in *. now rewrite IH.
    + rewrite concat_cons in *. rewrite <- IH. reflexivity.
Qed.

(** No piece holds the separator. *)
Lemma Split_no_sep (s : string) (sep : ascii) :
  Forall (fun p => ~ In sep (bytes p)) (strings.Split s sep).
Proof.
  induction s as [|c r IH]; simpl.
  - constructor; [intros []|constructor].
  - destruct (Ascii.eqb_spec c sep) as [->|Hne].
    + constructor; [intros []|exact IH].
    + destruct (strings.Split r sep) as [|p ps].
      * constructor; [|constructor]. simpl. intros [H|[]]. congruence.
      * inversion IH as [|? ? Hp Hps]; subst.
        constructor; [|exact Hps]. simpl. intros [H|H]; [congruence|tauto].
Qed.

(** On ASCII text [ToUpper] leaves no lower-case letter. *)
Lemma upperByte_not_lower (c : ascii) : strings.isLower (strings.upperByte c) = false.
Proof.
  destruct c as [[] [] [] [] [] [] [] []]; reflexivity.
Qed.

Lemma ToUpper_ascii (Map_ToUpper : string -> string) (s : string) :
  strings.isASCII s = true ->
  forallb (fun c => negb (strings.isLower c)) (bytes (ToUpper Map_ToUpper s)) = true.
Proof.
  intros H. unfold ToUpper. rewrite H. clear H.
  induction s as [|c r IH]; [reflexivity|].
  simpl. now rewrite upperByte_not_lower, IH.
Qed.

(** ** [ParseVehicles] *)

Section ParseVehiclesFacts.

Variable TrimFunc_IsSpace : string -> string.
Variable TrimRightFunc_IsSpace : string -> string.
Variable Map_ToUpper : string -> string.

Lemma ParseVehicles_loop (parts result : list string) :
  fold_left
    (fun result p =>
       let v := TrimSpace TrimFunc_IsSpace TrimRightFunc_IsSpace p in
       if negb (v =? "") then (result ++ [ToUpper Map_ToUpper v])%list else result)
    parts result
  = (result
     ++ map (ToUpper Map_ToUpper)
          (filter (fun v => negb (v =? ""))
             (map (TrimSpace TrimFunc_IsSpace TrimRightFunc_IsSpace) parts)))%list.
Proof.
  revert result. induction parts as [|p ps IH]; intros result; simpl.
  - now rewrite app_nil_r.
  - rewrite IH.
    destruct (negb (TrimSpace TrimFunc_IsSpace TrimRightFunc_IsSpace p =? "")); simpl.
    + now rewrite <- app_assoc.
    + reflexivity.
Qed.

(** C9. For every input string, [ParseVehicles] gives what splitting on
    commas, trimming every segment, dropping the segments that are empty
    after trimming and uppercasing the others gives, in the order of the
    segments; and the input [" t945cap , T267DFF ,,"] gives exactly
    [T945CAP], [T267DFF]. *)
Theorem ParseVehicles_split_trim_upper :
  (forall vehicles,
     ParseVehicles TrimFunc_IsSpace TrimRightFunc_IsSpace Map_ToUpper vehicles
     = parse_vehicles_spec TrimFunc_IsSpace TrimRightFunc_IsSpace Map_ToUpper vehicles)
  /\ ParseVehicles TrimFunc_IsSpace TrimRightFunc_IsSpace Map_ToUpper
       " t945cap , T267DFF ,,"
     = ["T945CAP"; "T267DFF"].
Proof.
  split.
  - intros vehicles. unfold ParseVehicles, parse_vehicles_spec.
    now rewrite ParseVehicles_loop.
  - reflexivity.
Qed.

End ParseVehiclesFacts.

(** ** [FormatResult] *)

Lemma FormatResult_header (registration : string) :
  ("" ++ "🚗 *RTOC Report for " ++ registration ++ "*" ++ nl)
  ++ "━━━━━━━━━━━━━━━━━━━━━" ++ nl
  = reportHeader registration.
Proof. reflexivity. Qed.

Lemma offenceBlock_appends : appends offenceBlock.
Proof.
  intros i txn sb. unfold offenceBlock. cbn zeta.
  rewrite !append_assoc. reflexivity.
Qed.

Lemma inspectionBlock_appends : appends inspectionBlock.
Proof.
  intros i ins sb. unfold inspectionBlock. cbn zeta.
  destruct (negb (InspectionData.Remarks ins =? ""));
    rewrite !append_assoc; reflexivity.
Qed.

Lemma range_from_appends {A} (body : Z -> A -> string -> string) :
  appends body ->
  forall l i sb, range_from i l body sb = sb ++ range_from i l body "".
Proof.
  intros Hb l. induction l as [|x r IH]; intros i sb; simpl.
  - now rewrite append_nil_r.
  - rewrite (IH (i + 1)%Z (body i x sb)), (IH (i + 1)%Z (body i x "")).
    rewrite (Hb i x sb). now rewrite append_assoc.
Qed.

(** What the body appends for the element at index [k] is in the result. *)
Lemma range_from_Contains {A} (body : Z -> A -> string -> string) :
  appends body ->
  forall l k x text i sb,
    nth_error l k = Some x ->
    Contains text (body (i + Z.of_nat k)%Z x "") ->
    Contains text (range_from i l body sb).
Proof.
  intros Hb l. induction l as [|y r IH]; intros k x text i sb Hk Hc.
  - destruct k; discriminate.
  - simpl. destruct k as [|k].
    + injection Hk as ->. replace (i + Z.of_nat 0)%Z with i in Hc by lia.
      rewrite (range_from_appends body Hb). apply Contains_app_l.
      rewrite (Hb i x sb). now apply Contains_app_r.
    + apply (IH k x text (i + 1)%Z); [exact Hk|].
      replace (i + 1 + Z.of_nat k)%Z with (i + Z.of_nat (S k))%Z by lia.
      exact Hc.
Qed.

Lemma inspectionBlock_dateLine (i : Z) (ins : InspectionData.t) :
  (10 < String.length (InspectionData.InspectionDate ins))%nat ->
  (10 < String.length (InspectionData.ValidUntil ins))%nat ->
  Contains
    (dateLine (substring 0 10 (InspectionData.InspectionDate ins))
              (substring 0 10 (InspectionData.ValidUntil ins)))
    (inspectionBlock i ins "").
Proof.
  intros Hd Hv. unfold inspectionBlock. cbn zeta.
  apply Nat.ltb_lt in Hd, Hv. rewrite Hd, Hv. unfold slice_to.
  apply Contains_app_l.
  destruct (negb (InspectionData.Remarks ins =? "")).
  - do 2 apply Contains_app_l. apply Contains_app_r, Contains_refl.
  - apply Contains_app_l. apply Contains_app_r, Contains_refl.
Qed.

(** C6. When the status of the response is not ["success"], the report is
    the header followed by the "no results found" line and nothing else,
    whatever pending transactions and inspection records the response
    holds: no offence block and no inspection block is written. *)
Theorem FormatResult_no_results (registration : string) (data : APIResponse.t)
    (Hstatus : APIResponse.Status data <> "success") :
  FormatResult registration data = reportHeader registration ++ noResultsLine
  /\ Contains "❌ No results found." (FormatResult registration data).
Proof.
  assert (E : FormatResult registration data
              = reportHeader registration ++ noResultsLine).
  { unfold FormatResult. cbn zeta.
    apply String.eqb_neq in Hstatus. rewrite Hstatus. cbn [negb].
    rewrite FormatResult_header. reflexivity. }
  split; [exact E|].
  rewrite E. apply Contains_app_r. unfold noResultsLine.
  exists "", nl. reflexivity.
Qed.

(** C7. When the status is ["success"] and the response holds no pending
    transaction and no inspection record, the report is the header followed
    by the "no pending offences" line and nothing else: no numbered block
    is written. *)
Theorem FormatResult_no_pending (registration : string) (data : APIResponse.t)
    (Hstatus : APIResponse.Status data = "success")
    (Hpending : APIResponse.PendingTransactions data = [])
    (Hinspections : APIResponse.InspectionData data = []) :
  FormatResult registration data = reportHeader registration ++ noPendingLine
  /\ Contains "✅ No pending offences." (FormatResult registration data).
Proof.
  assert (E : FormatResult registration data
              = reportHeader registration ++ noPendingLine).
  { unfold FormatResult. cbn zeta.
    rewrite Hstatus, Hpending, Hinspections. cbn.
    reflexivity. }
  split; [exact E|].
  rewrite E. apply Contains_app_r. unfold noPendingLine.
  exists "", (nl ++ nl). reflexivity.
Qed.

(** C8. In the report of a successful response, an inspection record whose
    two date strings are longer than 10 bytes is shown with the line made
    of the first 10 bytes of its inspection date, the arrow, and the first
    10 bytes of its valid-until date. *)
Theorem FormatResult_dates_cut_to_10 (registration : string) (data : APIResponse.t)
    (k : nat) (ins : InspectionData.t)
    (Hstatus : APIResponse.Status data = "success")
    (Hrecord : nth_error (APIResponse.InspectionData data) k = Some ins)
    (Hdate : (10 < String.length (InspectionData.InspectionDate ins))%nat)
    (Hvalid : (10 < String.length (InspectionData.ValidUntil ins))%nat) :
  Contains
    ("   📅 " ++ substring 0 10 (InspectionData.InspectionDate ins)
       ++ " → " ++ substring 0 10 (InspectionData.ValidUntil ins) ++ nl)
    (FormatResult registration data).
Proof.
  change (Contains
            (dateLine (substring 0 10 (InspectionData.InspectionDate ins))
                      (substring 0 10 (InspectionData.ValidUntil ins)))
            (FormatResult registration data)).
  unfold FormatResult. cbn zeta. rewrite Hstatus. cbn [String.eqb Ascii.eqb Bool.eqb negb].
  assert (Hlen : (0 <? len (APIResponse.InspectionData data))%Z = true).
  { apply Z.ltb_lt. unfold len.
    destruct (APIResponse.InspectionData data); [destruct k; discriminate|].
    simpl List.length. lia. }
  rewrite Hlen. unfold range.
  apply (range_from_Contains inspectionBlock inspectionBlock_appends _ k ins);
    [exact Hrecord|].
  now apply inspectionBlock_dateLine.
Qed.

(** The report of a response with one offence and one inspection record. *)
Example FormatResult_withRecords :
  FormatResult "T945CAP" Samples.withRecords
  = "🚗 *RTOC Report for T945CAP*
━━━━━━━━━━━━━━━━━━━━━
⚠️ *Pending Offences: 1* (Total: 20000 TZS)

*1.* Speeding
   📍 Dar
   💰 Charge: 10000 | Penalty: 20000
   🔖 Ref: R1
   📅 Issued: 2024-01-01
   📋 Status: UNPAID

🔍 *Inspection Records: 1*

*1.* Annual inspection — *PASS*
   📅 2024-03-05 → 2025-03-05
   📍 Dar es Salaam, Ilala

".
Proof. reflexivity. Qed.

Lemma FormatResult_no_results_witness :
  APIResponse.Status Samples.failed <> "success"
  /\ FormatResult "T945CAP" Samples.failed = reportHeader "T945CAP" ++ noResultsLine
  /\ Contains "❌ No results found." (FormatResult "T945CAP" Samples.failed).
Proof.
  assert (H : APIResponse.Status Samples.failed <> "success") by discriminate.
  split; [exact H|].
  exact (FormatResult_no_results "T945CAP" Samples.failed H).
Defined.

Lemma FormatResult_no_pending_witness :
  FormatResult "T267DFF" Script.noRecords = reportHeader "T267DFF" ++ noPendingLine
  /\ Contains "✅ No pending offences." (FormatResult "T267DFF" Script.noRecords).
Proof.
  exact (FormatResult_no_pending "T267DFF" Script.noRecords eq_refl eq_refl eq_refl).
Defined.

(** The record of the specification: ["2024-03-05T10:00:00Z"] and
    ["2025-03-05T10:00:00Z"] are shown as ["2024-03-05 → 2025-03-05"]. *)
Lemma FormatResult_dates_cut_to_10_witness :
  Contains ("   📅 2024-03-05 → 2025-03-05" ++ nl)
    (FormatResult "T945CAP" Samples.withRecords).
Proof.
  apply (FormatResult_dates_cut_to_10 "T945CAP" Samples.withRecords 0 Samples.inspection).
  - reflexivity.
  - reflexivity.
  - simpl. lia.
  - simpl. lia.
Defined.

(** ** Traces of the sequencers *)

Lemma schedule_app (a b : list event) : schedule (a ++ b) = (schedule a ++ schedule b)%list.
Proof. apply flat_map_app. Qed.

Lemma lookups_app (a b : list event) : lookups (a ++ b) = (lookups a ++ lookups b)%list.
Proof. apply flat_map_app. Qed.

Lemma notifications_app (a b : list event) :
  notifications (a ++ b) = (notifications a ++ notifications b)%list.
Proof. apply flat_map_app. Qed.

Lemma checks_schedule (evs : list event) : checks (schedule evs) = map fst (lookups evs).
Proof.
  induction evs as [|e evs IH]; [reflexivity|].
  destruct e; simpl; congruence.
Qed.

Lemma waits_schedule (evs : list event) : waits (schedule evs) = sleeps evs.
Proof.
  induction evs as [|e evs IH]; [reflexivity|].
  destruct e; simpl; congruence.
Qed.

Lemma paced_after_first (gap : time.Duration) (vehicles : list string) :
  forall i, (0 < i)%Z ->
  paced gap i vehicles = flat_map (fun r => [Wait gap; Lookup r]) vehicles.
Proof.
  induction vehicles as [|reg rest IH]; intros i Hi; [reflexivity|].
  simpl. apply Z.ltb_lt in Hi as Hb. rewrite Hb. simpl.
  now rewrite IH by lia.
Qed.

Lemma paced_from_0 (gap : time.Duration) (vehicles : list string) :
  paced gap 0 vehicles = cooldown_plan gap vehicles.
Proof.
  destruct vehicles as [|reg rest]; [reflexivity|].
  simpl. now rewrite paced_after_first by lia.
Qed.

Lemma checks_pairs (gap : time.Duration) (rest : list string) :
  checks (flat_map (fun r => [Wait gap; Lookup r]) rest) = rest.
Proof. induction rest as [|r rest IH]; simpl; congruence. Qed.

Lemma waits_pairs (gap : time.Duration) (rest : list string) :
  waits (flat_map (fun r => [Wait gap; Lookup r]) rest) = repeat gap (List.length rest).
Proof. induction rest as [|r rest IH]; simpl; congruence. Qed.

Lemma checks_cooldown_plan (gap : time.Duration) (vehicles : list string) :
  checks (cooldown_plan gap vehicles) = vehicles.
Proof.
  destruct vehicles as [|reg rest]; [reflexivity|].
  simpl. now rewrite checks_pairs.
Qed.

Lemma waits_cooldown_plan (gap : time.Duration) (vehicles : list string) :
  waits (cooldown_plan gap vehicles) = repeat gap (List.length vehicles - 1).
Proof.
  destruct vehicles as [|reg rest]; [reflexivity|].
  simpl. rewrite waits_pairs. now rewrite Nat.sub_0_r.
Qed.

Section SequencerFacts.

Variable World : Type.
Variable json_Marshal : string -> error + string.
Variable client_Post : string -> string -> World -> (error + http.Response) * World.
Variable bot_Send : string -> World -> option error * World.

Lemma events_bind {A B} (m : M World A) (f : A -> M World B) (s : State World) :
  events_of (bind m f s)
  = (events_of (m s) ++ events_of (f (result_of (m s)) (state_of (m s))))%list.
Proof.
  unfold bind, events_of, result_of, state_of.
  destruct (m s) as [[a s1] e1]. simpl.
  destruct (f a s1) as [[b s2] e2]. reflexivity.
Qed.

Ltac run_step :=
  unfold checkAllVehicles_body, onDemand_body, CheckVehicle, call_notify,
    bind, ret, emit, on_world, slog_Info, slog_Error, time_Sleep, read_apiURL,
    result_of, state_of, events_of;
  repeat (cbn;
          match goal with
          | |- context [match ?x with _ => _ end] =>
              lazymatch x with
              | context [match _ with _ => _ end] => fail
              | _ => destruct x
              end
          end);
  cbn.

(** One turn of the loop of the sweep: an optional cooldown, one lookup,
    and one notification that reports that lookup. *)
Lemma checkAllVehicles_body_trace (notify : NotifyFunc World) (i : Z) (reg : string)
    (s : State World) :
  let evs := events_of (checkAllVehicles_body json_Marshal client_Post notify i reg s) in
  schedule evs
  = ((if (0 <? i)%Z then [Wait (gapMinutes * time.Minute)%Z] else []) ++ [Lookup reg])%list
  /\ notifications evs = map report (lookups evs).
Proof. run_step; split; reflexivity. Qed.

Lemma onDemand_body_trace (i : Z) (reg : string) (s : State World) :
  let evs := events_of (onDemand_body json_Marshal client_Post bot_Send i reg s) in
  schedule evs
  = ((if (0 <? i)%Z then [Wait (10 * time.Minute)%Z] else []) ++ [Lookup reg])%list
  /\ notifications evs = map report (lookups evs).
Proof. run_step; split; reflexivity. Qed.

(** A loop whose every turn is paced and reports its lookup is paced and
    reports every lookup. *)
Lemma for_range_from_trace (gap : time.Duration) (body : Z -> string -> M World unit) :
  (forall i reg s,
     schedule (events_of (body i reg s))
     = ((if (0 <? i)%Z then [Wait gap] else []) ++ [Lookup reg])%list
     /\ notifications (events_of (body i reg s))
        = map report (lookups (events_of (body i reg s)))) ->
  forall vehicles i s,
    schedule (events_of (for_range_from i vehicles body s)) = paced gap i vehicles
    /\ notifications (events_of (for_range_from i vehicles body s))
       = map report (lookups (events_of (for_range_from i vehicles body s))).
Proof.
  intros Hbody vehicles.
  induction vehicles as [|reg rest IH]; intros i s.
  - split; reflexivity.
  - cbn [for_range_from paced]. rewrite events_bind.
    destruct (Hbody i reg s) as [Hs Hn].
    destruct (IH (i + 1)%Z (state_of (body i reg s))) as [IHs IHn].
    rewrite schedule_app, notifications_app, lookups_app, map_app.
    rewrite Hs, Hn, IHs, IHn. split; [|reflexivity].
    now rewrite <- app_assoc.
Qed.

Lemma checkAllVehicles_trace (vehicles : list string) (notify : NotifyFunc World)
    (s : State World) :
  let evs := events_of (checkAllVehicles json_Marshal client_Post vehicles notify s) in
  schedule evs = cooldown_plan (gapMinutes * time.Minute)%Z vehicles
  /\ notifications evs = map report (lookups evs).
Proof.
  cbn zeta. unfold checkAllVehicles, for_range.
  rewrite !events_bind.
  rewrite !schedule_app, !notifications_app, !lookups_app, !map_app.
  destruct (for_range_from_trace (gapMinutes * time.Minute)%Z
              (checkAllVehicles_body json_Marshal client_Post notify)
              (checkAllVehicles_body_trace notify) vehicles 0%Z
              (state_of (slog_Info "starting daily vehicle check" s)))
    as [Hs Hn].
  rewrite Hs, Hn, paced_from_0. cbn. rewrite !app_nil_r. split; reflexivity.
Qed.

Lemma onDemandCheck_trace (registrations : list string) (s : State World) :
  let evs := events_of (onDemandCheck json_Marshal client_Post bot_Send registrations s) in
  schedule evs = cooldown_plan (10 * time.Minute)%Z registrations
  /\ notifications evs = map report (lookups evs).
Proof.
  cbn zeta. unfold onDemandCheck, for_range.
  destruct (for_range_from_trace (10 * time.Minute)%Z
              (onDemand_body json_Marshal client_Post bot_Send)
              onDemand_body_trace registrations 0%Z s) as [Hs Hn].
  rewrite Hs, Hn, paced_from_0. split; reflexivity.
Qed.

End SequencerFacts.

(** ** The order of what a sequencer does *)

Lemma marks_app (a b : list event) : marks (a ++ b) = (marks a ++ marks b)%list.
Proof. apply flat_map_app. Qed.

Section SequencerOrder.

Variable World : Type.
Variable json_Marshal : string -> error + string.
Variable client_Post : string -> string -> World -> (error + http.Response) * World.
Variable bot_Send : string -> World -> option error * World.

Ltac run_round :=
  unfold checkAllVehicles_body, onDemand_body, CheckVehicle, call_notify,
    bind, ret, emit, on_world, slog_Info, slog_Error, time_Sleep, read_apiURL,
    result_of, state_of, events_of;
  repeat (cbn;
          match goal with
          | |- context [match ?x with _ => _ end] =>
              lazymatch x with
              | context [match _ with _ => _ end] => fail
              | _ => destruct x
              end
          end);
  cbn.

(** One turn of the loop of the sweep, in order: the cooldown when the
    index is positive, the lookup, the text about what it returned. *)
Lemma checkAllVehicles_body_round (notify : NotifyFunc World) (i : Z) (reg : string)
    (s : State World) :
  exists r,
    lookups (events_of (checkAllVehicles_body json_Marshal client_Post notify i reg s))
    = [(reg, r)]
    /\ marks (events_of (checkAllVehicles_body json_Marshal client_Post notify i reg s))
       = ((if (0 <? i)%Z then [Waited (gapMinutes * time.Minute)%Z] else [])
          ++ [Asked reg r; Told (toldText reg r)])%list.
Proof. run_round; eexists; split; reflexivity. Qed.

Lemma onDemand_body_round (i : Z) (reg : string) (s : State World) :
  exists r,
    lookups (events_of (onDemand_body json_Marshal client_Post bot_Send i reg s))
    = [(reg, r)]
    /\ marks (events_of (onDemand_body json_Marshal client_Post bot_Send i reg s))
       = ((if (0 <? i)%Z then [Waited (10 * time.Minute)%Z] else [])
          ++ [Asked reg r; Told (toldText reg r)])%list.
Proof. run_round; eexists; split; reflexivity. Qed.

(** A loop of such turns is a sequence of rounds. *)
Lemma for_range_from_rounds (gap : time.Duration) (body : Z -> string -> M World unit) :
  (forall i reg s,
     exists r,
       lookups (events_of (body i reg s)) = [(reg, r)]
       /\ marks (events_of (body i reg s))
          = ((if (0 <? i)%Z then [Waited gap] else [])
             ++ [Asked reg r; Told (toldText reg r)])%list) ->
  forall vehicles i s,
    (0 <= i)%Z ->
    marks (events_of (for_range_from i vehicles body s))
    = rounds_from gap toldText (negb (0 <? i)%Z)
        (lookups (events_of (for_range_from i vehicles body s))).
Proof.
  intros Hbody vehicles.
  induction vehicles as [|reg rest IH]; intros i s Hi; [reflexivity|].
  cbn [for_range_from]. rewrite events_bind, marks_app, lookups_app.
  destruct (Hbody i reg s) as (r & Hl & Hm).
  rewrite Hl, Hm, (IH (i + 1)%Z) by lia.
  assert (Hnext : (0 <? i + 1)%Z = true) by (apply Z.ltb_lt; lia).
  rewrite Hnext. cbn [negb app rounds_from fst snd].
  destruct (0 <? i)%Z; reflexivity.
Qed.

Lemma checkAllVehicles_rounds (vehicles : list string) (notify : NotifyFunc World)
    (s : State World) :
  marks (events_of (checkAllVehicles json_Marshal client_Post vehicles notify s))
  = rounds_from (gapMinutes * time.Minute)%Z toldText true
      (lookups (events_of (checkAllVehicles json_Marshal client_Post vehicles notify s))).
Proof.
  unfold checkAllVehicles, for_range.
  rewrite !events_bind, !marks_app, !lookups_app.
  rewrite (for_range_from_rounds (gapMinutes * time.Minute)%Z
             (checkAllVehicles_body json_Marshal client_Post notify)
             (checkAllVehicles_body_round notify) vehicles 0%Z) by lia.
  cbn [slog_Info emit events_of state_of snd fst marks lookups flat_map app
       Z.ltb Z.compare negb].
  now rewrite !app_nil_r.
Qed.

Lemma onDemandCheck_rounds (registrations : list string) (s : State World) :
  marks (events_of (onDemandCheck json_Marshal client_Post bot_Send registrations s))
  = rounds_from (10 * time.Minute)%Z toldText true
      (lookups (events_of
         (onDemandCheck json_Marshal client_Post bot_Send registrations s))).
Proof.
  unfold onDemandCheck, for_range.
  now rewrite (for_range_from_rounds (10 * time.Minute)%Z
                 (onDemand_body json_Marshal client_Post bot_Send)
                 onDemand_body_round registrations 0%Z) by lia.
Qed.

End SequencerOrder.

(** ** The sequencers: lookups, cooldowns and notifications *)

Section SequencerTheorems.

Variable World : Type.
Variable json_Marshal : string -> error + string.
Variable client_Post : string -> string -> World -> (error + http.Response) * World.
Variable bot_Send : string -> World -> option error * World.

(** C1. For a list of n > 1 vehicles, whatever the lookup service and the
    notification sink answer, one run of [checkAllVehicles] calls
    [CheckVehicle] exactly n times, once per vehicle in the order of the
    list, and sleeps exactly n - 1 times, each time for the cooldown of
    [gapMinutes] minutes. *)
Theorem checkAllVehicles_n_lookups_n_minus_1_sleeps (vehicles : list string)
    (notify : NotifyFunc World) (s : State World)
    (Hn : (1 < List.length vehicles)%nat) :
  let evs := events_of (checkAllVehicles json_Marshal client_Post vehicles notify s) in
  map fst (lookups evs) = vehicles
  /\ List.length (lookups evs) = List.length vehicles
  /\ sleeps evs = repeat (gapMinutes * time.Minute)%Z (List.length vehicles - 1)
  /\ List.length (sleeps evs) = (List.length vehicles - 1)%nat.
Proof.
  cbn zeta.
  destruct (checkAllVehicles_trace World json_Marshal client_Post vehicles notify s)
    as [Hs _].
  assert (Hl : map fst (lookups (events_of
                 (checkAllVehicles json_Marshal client_Post vehicles notify s)))
               = vehicles)
    by (rewrite <- checks_schedule, Hs; apply checks_cooldown_plan).
  assert (Hw : sleeps (events_of
                 (checkAllVehicles json_Marshal client_Post vehicles notify s))
               = repeat (gapMinutes * time.Minute)%Z (List.length vehicles - 1))
    by (rewrite <- waits_schedule, Hs; apply waits_cooldown_plan).
  repeat split.
  - exact Hl.
  - rewrite <- Hl at 2. now rewrite length_map.
  - exact Hw.
  - rewrite Hw. apply repeat_length.
Qed.

(** C10. For a list of exactly one vehicle, one run of [checkAllVehicles]
    calls [CheckVehicle] exactly once, for that vehicle, and never sleeps. *)
Theorem checkAllVehicles_single_vehicle_no_sleep (reg : string)
    (notify : NotifyFunc World) (s : State World) :
  let evs := events_of (checkAllVehicles json_Marshal client_Post [reg] notify s) in
  schedule evs = [Lookup reg]
  /\ map fst (lookups evs) = [reg]
  /\ List.length (lookups evs) = 1%nat
  /\ sleeps evs = [].
Proof.
  cbn zeta.
  destruct (checkAllVehicles_trace World json_Marshal client_Post [reg] notify s)
    as [Hs _].
  change (cooldown_plan (gapMinutes * time.Minute)%Z [reg]) with [Lookup reg] in Hs.
  assert (Hl : map fst (lookups (events_of
                 (checkAllVehicles json_Marshal client_Post [reg] notify s)))
               = [reg])
    by (rewrite <- checks_schedule, Hs; reflexivity).
  repeat split.
  - exact Hs.
  - exact Hl.
  - rewrite <- (length_map fst), Hl. reflexivity.
  - rewrite <- waits_schedule, Hs. reflexivity.
Qed.

(** C5. The scheduled sweep sleeps 30 minutes before every vehicle but the
    first; the loop of the [/check] command sleeps 10 minutes before every
    vehicle but the first; the two intervals differ. *)
Theorem cooldown_30_minutes_scheduled_10_on_demand (vehicles : list string)
    (notify : NotifyFunc World) (s s' : State World) :
  schedule (events_of (checkAllVehicles json_Marshal client_Post vehicles notify s))
  = cooldown_plan (30 * time.Minute)%Z vehicles
  /\ schedule (events_of (onDemandCheck json_Marshal client_Post bot_Send vehicles s'))
     = cooldown_plan (10 * time.Minute)%Z vehicles
  /\ (30 * time.Minute)%Z <> (10 * time.Minute)%Z.
Proof.
  split; [|split].
  - apply (checkAllVehicles_trace World json_Marshal client_Post vehicles notify s).
  - apply (onDemandCheck_trace World json_Marshal client_Post bot_Send vehicles s').
  - discriminate.
Qed.


(** C3 as the code has it. [CheckVehicle] returns the error [rateLimited]
    exactly when the service answers 429, and the text of every other
    error it returns differs from the text of [rateLimited]. *)
Theorem CheckVehicle_rate_limit_told_by_text (registration : string) (s : State World) :
  let r := result_of (CheckVehicle json_Marshal client_Post registration s) in
  (answeredStatus json_Marshal client_Post registration s = Some 429%Z ->
   r = inl rateLimited)
  /\ (answeredStatus json_Marshal client_Post registration s <> Some 429%Z ->
      forall err, r = inl err -> Error err <> Error rateLimited).
Proof.
  cbn zeta.
  unfold answeredStatus, CheckVehicle, bind, ret, emit, on_world, read_apiURL,
    result_of.
  destruct (json_Marshal registration) as [merr|payload]; cbn.
  - split; [discriminate|]. intros _ err [= <-]. discriminate.
  - destruct (client_Post (apiURL World s) payload (world World s)) as [[perr|resp] w].
    + cbn. split; [discriminate|]. intros _ err [= <-]. discriminate.
    + cbn. destruct (http.StatusCode resp =? http.StatusOK)%Z eqn:Hok.
      * apply Z.eqb_eq in Hok. unfold http.StatusOK in Hok.
        split; [rewrite Hok; discriminate|].
        intros _ err. destruct (http.Body resp); cbn; intros [= <-]. discriminate.
      * destruct (http.StatusCode resp =? http.StatusTooManyRequests)%Z eqn:H429; cbn.
        -- split; [reflexivity|]. apply Z.eqb_eq in H429.
           unfold http.StatusTooManyRequests in H429. rewrite H429. congruence.
        -- apply Z.eqb_neq in H429. unfold http.StatusTooManyRequests in H429.
           split; [congruence|]. intros _ err [= <-]. discriminate.
Qed.

End SequencerTheorems.

(** ** The daily trigger *)

Section Trigger.

Local Open Scope Z_scope.

Lemma civil_date_of_localDay (t : time.Time) :
  time.daysOfCivil (time.Year t) (time.Month t) (time.Day t) = time.localDay t.
Proof.
  unfold time.Year, time.Month, time.Day.
  pose proof (daysOfCivil_civilOfDays (time.localDay t)) as H.
  destruct (time.civilOfDays (time.localDay t)) as [[y m] d]. exact H.
Qed.

Lemma todayAtStart_unixNano (now : time.Time) :
  time.unixNano (todayAtStart now)
  = (time.localDay (time.In now eat) * 86400 + 54000) * 1000000000.
Proof.
  unfold todayAtStart, time.Date. cbn [time.unixNano].
  rewrite civil_date_of_localDay. unfold startHour, startMin, eat. cbn. lia.
Qed.

(** The local day of an instant, between its bounds. *)
Lemma localDay_bounds (now : time.Time) :
  let day := time.localDay (time.In now eat) in
  (day * 86400 - 10800) * 1000000000 <= time.unixNano now
  < (day * 86400 + 75600) * 1000000000.
Proof.
  cbn zeta. unfold time.localDay, time.localSeconds, time.In, eat. cbn.
  set (n := time.unixNano now).
  pose proof (Z.div_mod n 1000000000 ltac:(lia)) as Hn.
  pose proof (Z.mod_pos_bound n 1000000000 ltac:(lia)) as Hnb.
  set (q := n / 1000000000) in *.
  pose proof (Z.div_mod (q + 10800) 86400 ltac:(lia)) as Hq.
  pose proof (Z.mod_pos_bound (q + 10800) 86400 ltac:(lia)) as Hqb.
  set (day := (q + 10800) / 86400) in *.
  lia.
Qed.

Lemma localSeconds_whole (x : Z) (l : time.Location) :
  time.localSeconds {| time.unixNano := x * 1000000000; time.loc := l |}
  = x + time.offset l.
Proof.
  unfold time.localSeconds. cbn. now rewrite Z.div_mul by lia.
Qed.

Lemma clock_of_start (day : Z) (l : time.Location) :
  time.offset l = 10800 ->
  let t := {| time.unixNano := (day * 86400 + 54000) * 1000000000; time.loc := l |} in
  time.localDay t = day /\ time.Clock t = (18, 0, 0) /\ time.Nanosecond_of t = 0.
Proof.
  intros Hl. cbn zeta.
  unfold time.localDay, time.Clock, time.Nanosecond_of.
  rewrite localSeconds_whole, Hl. cbn [time.unixNano].
  replace (day * 86400 + 54000 + 10800) with (64800 + day * 86400) by lia.
  rewrite Z.div_add, Z_mod_plus_full, Z.mod_mul by lia.
  split; [|split]; reflexivity.
Qed.

Lemma nextRun_unfold (now : time.Time) :
  nextRun now
  = if time.After (time.In now eat) (todayAtStart now)
    then time.Add (todayAtStart now) (24 * time.Hour)
    else todayAtStart now.
Proof. reflexivity. Qed.

Lemma todayAtStart_shape (now : time.Time) :
  todayAtStart now
  = {| time.unixNano :=
         (time.localDay (time.In now eat) * 86400 + 54000) * 1000000000;
       time.loc := eat |}.
Proof.
  pose proof (todayAtStart_unixNano now) as Htoday.
  assert (Hloc : time.loc (todayAtStart now) = eat) by reflexivity.
  destruct (todayAtStart now) as [n l]. cbn in *. congruence.
Qed.

Lemma Add_day_shape (day : Z) (l : time.Location) :
  time.Add {| time.unixNano := (day * 86400 + 54000) * 1000000000; time.loc := l |}
    (24 * time.Hour)
  = {| time.unixNano := ((day + 1) * 86400 + 54000) * 1000000000; time.loc := l |}.
Proof.
  unfold time.Add. cbn [time.unixNano time.loc]. f_equal.
  unfold time.Hour, time.Minute, time.Second, time.Nanosecond. lia.
Qed.

(** C2 as the code has it. For every current time, the trigger that the
    scheduler computes is an instant at 18:00:00 sharp in the fixed UTC+3
    zone, not before the current time and less than 24 hours after it: the
    first 18:00 at or after now.  When now is past today's 18:00 it is
    18:00 of the next calendar day, when now is before today's 18:00 it is
    18:00 of the same day, and when now is today's 18:00 to the nanosecond
    it is now itself. *)
Theorem nextRun_first_start_at_or_after_now (now : time.Time) :
  let today := todayAtStart now in
  let next := nextRun now in
  time.loc next = eat
  /\ time.Clock next = (18, 0, 0)
  /\ time.Nanosecond_of next = 0
  /\ time.unixNano now <= time.unixNano next < time.unixNano now + 24 * time.Hour
  /\ (time.After (time.In now eat) today = true ->
      next = time.Add today (24 * time.Hour)
      /\ time.localDay next = time.localDay (time.In now eat) + 1)
  /\ (time.Before (time.In now eat) today = true ->
      next = today
      /\ time.localDay next = time.localDay (time.In now eat)
      /\ (time.Year next, time.Month next, time.Day next)
         = (time.Year (time.In now eat), time.Month (time.In now eat),
            time.Day (time.In now eat)))
  /\ (time.Equal (time.In now eat) today = true ->
      time.unixNano next = time.unixNano now).
Proof.
  cbn zeta.
  pose proof (localDay_bounds now) as Hday. cbn zeta in Hday.
  rewrite nextRun_unfold, todayAtStart_shape.
  unfold time.Year, time.Month, time.Day.
  generalize dependent (time.localDay (time.In now eat)). intros day Hday.
  destruct (clock_of_start day eat eq_refl) as (Hd0 & Hc0 & Hn0).
  destruct (clock_of_start (day + 1) eat eq_refl) as (Hd1 & Hc1 & Hn1).
  rewrite Add_day_shape.
  assert (H24 : 24 * time.Hour = 86400000000000) by reflexivity.
  rewrite H24.
  unfold time.After, time.Before, time.Equal.
  cbn [time.In time.unixNano].
  destruct ((day * 86400 + 54000) * 1000000000 <? time.unixNano now) eqn:Hafter.
  - apply Z.ltb_lt in Hafter.
    split; [reflexivity|]. split; [exact Hc1|]. split; [exact Hn1|].
    cbn [time.unixNano].
    split; [lia|].
    split; [intros _; split; [reflexivity|exact Hd1]|].
    split; [intros H; apply Z.ltb_lt in H; lia|].
    intros H. apply Z.eqb_eq in H. lia.
  - apply Z.ltb_ge in Hafter.
    split; [reflexivity|]. split; [exact Hc0|]. split; [exact Hn0|].
    cbn [time.unixNano].
    split; [lia|].
    split; [discriminate|].
    split.
    + intros _. split; [reflexivity|]. split; [exact Hd0|].
      rewrite Hd0. reflexivity.
    + intros H. apply Z.eqb_eq in H. lia.
Qed.

End Trigger.

(** The two cases of the specification: at 19:00 the trigger is 18:00 of
    the following day, at 17:00 it is 18:00 of the same day. *)
Lemma nextRun_first_start_at_or_after_now_witness :
  nextRun (time.Date 2024 1 1 19 0 0 0 eat) = time.Date 2024 1 2 18 0 0 0 eat
  /\ nextRun (time.Date 2024 1 1 17 0 0 0 eat) = time.Date 2024 1 1 18 0 0 0 eat.
Proof.
  split.
  - destruct (nextRun_first_start_at_or_after_now (time.Date 2024 1 1 19 0 0 0 eat))
      as (_ & _ & _ & _ & Hpast & _).
    destruct (Hpast eq_refl) as [Hnext _]. rewrite Hnext. reflexivity.
  - destruct (nextRun_first_start_at_or_after_now (time.Date 2024 1 1 17 0 0 0 eat))
      as (_ & _ & _ & _ & _ & Hbefore & _).
    destruct (Hbefore eq_refl) as [Hnext _]. rewrite Hnext. reflexivity.
Defined.

(** C2 as stated fails when now is 18:00:00 sharp: the trigger is now
    itself, not an instant strictly after now. *)
Lemma nextRun_at_start_not_after_now :
  nextRun (time.Date 2024 1 1 18 0 0 0 eat) = time.Date 2024 1 1 18 0 0 0 eat
  /\ time.After (nextRun (time.Date 2024 1 1 18 0 0 0 eat))
       (time.Date 2024 1 1 18 0 0 0 eat) = false.
Proof. split; reflexivity. Qed.

(** ** Runs on the scripted world *)

Lemma checkAllVehicles_n_lookups_n_minus_1_sleeps_witness :
  (1 < List.length threeVehicles)%nat
  /\ map fst (lookups (events_of (Script.checkAllVehicles threeVehicles Script.send badDay)))
     = threeVehicles
  /\ List.length (lookups (events_of
       (Script.checkAllVehicles threeVehicles Script.send badDay))) = 3%nat
  /\ sleeps (events_of (Script.checkAllVehicles threeVehicles Script.send badDay))
     = [1800000000000; 1800000000000]%Z
  /\ List.length (sleeps (events_of
       (Script.checkAllVehicles threeVehicles Script.send badDay))) = 2%nat.
Proof.
  assert (H : (1 < List.length threeVehicles)%nat) by (simpl; lia).
  split; [exact H|].
  exact (checkAllVehicles_n_lookups_n_minus_1_sleeps Script.t Script.marshal
           Script.post threeVehicles Script.send badDay H).
Defined.

(** What the operator receives on that run. *)
Example badDay_notifications :
  notifications (events_of (Script.checkAllVehicles threeVehicles Script.send badDay))
  = ["❌ Failed to check *T945CAP*: rate limited (429): too many requests, try again later";
     FormatResult "T267DFF" Script.noRecords;
     "❌ Failed to check *T111AAA*: post request: connection refused"].
Proof. reflexivity. Qed.


Example onDemand_sleeps :
  sleeps (events_of (Script.onDemandCheck threeVehicles badDay))
  = [600000000000; 600000000000]%Z.
Proof. reflexivity. Qed.

Lemma CheckVehicle_rate_limit_told_by_text_witness :
  result_of (Script.CheckVehicle "T945CAP" (answering 429)) = inl rateLimited
  /\ forall err,
       result_of (Script.CheckVehicle "T945CAP" (answering 500)) = inl err ->
       Error err <> Error rateLimited.
Proof.
  split.
  - apply (CheckVehicle_rate_limit_told_by_text Script.t Script.marshal Script.post
             "T945CAP" (answering 429)).
    reflexivity.
  - apply (CheckVehicle_rate_limit_told_by_text Script.t Script.marshal Script.post
             "T945CAP" (answering 500)).
    discriminate.
Defined.

(** C3 as stated fails: the error for status 429 and the error for status
    500 are of one and the same kind, a plain [*errors.errorString]; only
    their texts differ. *)
Lemma rate_limit_error_of_generic_kind :
  result_of (Script.CheckVehicle "T945CAP" (answering 429))
  = inl (errorString "rate limited (429): too many requests, try again later")
  /\ result_of (Script.CheckVehicle "T945CAP" (answering 500))
     = inl (errorString "unexpected status code: 500")
  /\ errorKind (errorString "rate limited (429): too many requests, try again later")
     = errorKind (errorString "unexpected status code: 500").
Proof. repeat split. Qed.

(** ** The layout of a report *)

Lemma concat_empty_cons (x : string) (l : list string) :
  String.concat "" (x :: l) = x ++ String.concat "" l.
Proof.
  destruct l as [|y l]; [simpl; now rewrite append_nil_r|reflexivity].
Qed.

Lemma range_from_blocks {A} (body : Z -> A -> string -> string) :
  appends body ->
  forall l i,
    range_from i l body ""
    = String.concat "" (map (fun ix => body (fst ix) (snd ix) "") (indexed_from i l)).
Proof.
  intros Hb l. induction l as [|x r IH]; intros i; [reflexivity|].
  cbn [range_from indexed_from map]. rewrite concat_empty_cons.
  rewrite (range_from_appends body Hb). now rewrite IH.
Qed.

Lemma range_blocks {A} (body : Z -> A -> string -> string) (l : list A) (sb : string) :
  appends body -> range l body sb = sb ++ blocks body l.
Proof.
  intros Hb. unfold range, blocks.
  rewrite (range_from_appends body Hb). now rewrite (range_from_blocks body Hb).
Qed.

Lemma indexed_from_nth {A} (l : list A) :
  forall k x i, nth_error l k = Some x ->
  exists before after,
    indexed_from i l = (before ++ (i + Z.of_nat k, x)%Z :: after)%list.
Proof.
  induction l as [|y r IH]; intros k x i Hk; [destruct k; discriminate|].
  destruct k as [|k].
  - injection Hk as ->. exists [], (indexed_from (i + 1) r).
    cbn. now rewrite Z.add_0_r.
  - destruct (IH k x (i + 1)%Z Hk) as (before & after & E).
    exists ((i, y) :: before), after. cbn [indexed_from]. rewrite E.
    replace (i + 1 + Z.of_nat k)%Z with (i + Z.of_nat (S k))%Z by lia.
    reflexivity.
Qed.

Lemma concat_empty_app (a b : list string) :
  String.concat "" (a ++ b) = String.concat "" a ++ String.concat "" b.
Proof.
  induction a as [|x a IH]; [reflexivity|].
  cbn [app]. rewrite !concat_empty_cons, IH. now rewrite append_assoc.
Qed.

(** The block of the element at index [k] is part of the blocks. *)
Lemma blocks_Contains {A} (body : Z -> A -> string -> string) (l : list A)
    (k : nat) (x : A) :
  nth_error l k = Some x -> Contains (body (Z.of_nat k) x "") (blocks body l).
Proof.
  intros Hk. unfold blocks.
  destruct (indexed_from_nth l k x 0%Z Hk) as (before & after & E).
  rewrite E, map_app, concat_empty_app. cbn [map fst snd].
  rewrite concat_empty_cons. apply Contains_app_r, Contains_app_l.
  rewrite Z.add_0_l. apply Contains_refl.
Qed.

Lemma Contains_trans (a b c : string) : Contains a b -> Contains b c -> Contains a c.
Proof.
  intros (p1 & q1 & ->) (p2 & q2 & ->).
  exists (p2 ++ p1), (q1 ++ q2). now rewrite !append_assoc.
Qed.

(** A successful report, part by part. *)
Lemma FormatResult_parts (registration : string) (data : APIResponse.t)
    (Hstatus : APIResponse.Status data = "success") :
  FormatResult registration data
  = reportHeader registration ++ pendingPart data ++ inspectionPart data.
Proof.
  unfold FormatResult, pendingPart, inspectionPart. cbn zeta.
  rewrite Hstatus. cbn [String.eqb Ascii.eqb Bool.eqb negb].
  rewrite FormatResult_header.
  destruct (APIResponse.PendingTransactions data) as [|txn txns];
    destruct (APIResponse.InspectionData data) as [|ins records].
  - cbn [len List.length Z.of_nat Z.ltb Z.compare].
    now rewrite append_nil_r.
  - replace (0 <? len (@nil PendingTransaction.t))%Z with false by reflexivity.
    replace (0 <? len (ins :: records))%Z with true
      by (symmetry; apply Z.ltb_lt; unfold len; simpl List.length; lia).
    rewrite (range_blocks inspectionBlock _ _ inspectionBlock_appends).
    unfold noPendingLine. now rewrite !append_assoc.
  - replace (0 <? len (txn :: txns))%Z with true
      by (symmetry; apply Z.ltb_lt; unfold len; simpl List.length; lia).
    replace (0 <? len (@nil InspectionData.t))%Z with false by reflexivity.
    rewrite (range_blocks offenceBlock _ _ offenceBlock_appends).
    now rewrite !append_assoc, append_nil_r.
  - replace (0 <? len (txn :: txns))%Z with true
      by (symmetry; apply Z.ltb_lt; unfold len; simpl List.length; lia).
    replace (0 <? len (ins :: records))%Z with true
      by (symmetry; apply Z.ltb_lt; unfold len; simpl List.length; lia).
    rewrite (range_blocks inspectionBlock _ _ inspectionBlock_appends).
    rewrite (range_blocks offenceBlock _ _ offenceBlock_appends).
    now rewrite !append_assoc.
Qed.

(** X1. The report of a successful response is the header, then the part
    on pending offences, then the part on inspections; in each part the
    blocks stand in the order of the response and are numbered from 1. *)
Theorem FormatResult_success_layout (registration : string) (data : APIResponse.t)
    (Hstatus : APIResponse.Status data = "success") :
  FormatResult registration data
  = reportHeader registration ++ pendingPart data ++ inspectionPart data.
Proof. exact (FormatResult_parts registration data Hstatus). Qed.

Lemma substring_0_length (n : nat) (s : string) :
  (String.length (substring 0 n s) <= n)%nat.
Proof.
  revert s. induction n as [|n IH]; intros s.
  - destruct s; simpl; lia.
  - destruct s as [|c r]; simpl; [lia|]. specialize (IH r). lia.
Qed.

Lemma substring_0_prefix (n : nat) (s : string) :
  StartsWith (substring 0 n s) s.
Proof.
  revert s. induction n as [|n IH]; intros s.
  - exists s. destruct s; reflexivity.
  - destruct s as [|c r]; [exists ""; reflexivity|].
    destruct (IH r) as [rest E]. exists rest. simpl. now rewrite <- E.
Qed.

Lemma shownDate_spec (s : string) :
  (String.length (shownDate s) <= 10)%nat
  /\ StartsWith (shownDate s) s
  /\ ((String.length s <= 10)%nat -> shownDate s = s).
Proof.
  unfold shownDate, slice_to.
  destruct (Nat.ltb_spec 10 (String.length s)) as [Hlong|Hshort].
  - split; [apply substring_0_length|]. split; [apply substring_0_prefix|lia].
  - split; [exact Hshort|]. split; [|reflexivity].
    exists "". now rewrite append_nil_r.
Qed.

(** The text is looked for after the first part of an append. *)
Ltac skip_left :=
  repeat match goal with |- Contains _ (_ ++ _) => apply Contains_app_r end.

(** Appends nested to the right, with the literals pushed inside. *)
Ltac normalize_append :=
  repeat first [rewrite append_assoc | progress cbn [append]].

Lemma offenceBlock_text (i : Z) (txn : PendingTransaction.t) :
  offenceBlock i txn ""
  = "*" ++ itoa (i + 1) ++ ".* " ++ PendingTransaction.Offence txn ++ nl
    ++ "   📍 " ++ PendingTransaction.Location txn ++ nl
    ++ "   💰 Charge: " ++ PendingTransaction.Charge txn
    ++ " | Penalty: " ++ PendingTransaction.Penalty txn ++ nl
    ++ "   🔖 Ref: " ++ PendingTransaction.Reference txn ++ nl
    ++ "   📅 Issued: " ++ PendingTransaction.IssuedDate txn ++ nl
    ++ "   📋 Status: " ++ PendingTransaction.Status txn ++ nl ++ nl.
Proof.
  unfold offenceBlock. cbn zeta. normalize_append. reflexivity.
Qed.

Lemma inspectionBlock_text (i : Z) (ins : InspectionData.t) :
  inspectionBlock i ins ""
  = "*" ++ itoa (i + 1) ++ ".* " ++ InspectionData.ReasonEN ins
    ++ " — *" ++ InspectionData.FinalResult ins ++ "*" ++ nl
    ++ "   📅 " ++ shownDate (InspectionData.InspectionDate ins)
    ++ " → " ++ shownDate (InspectionData.ValidUntil ins) ++ nl
    ++ "   📍 " ++ InspectionData.Region ins ++ ", "
    ++ InspectionData.District ins ++ nl
    ++ (if InspectionData.Remarks ins =? "" then ""
        else "   📝 " ++ InspectionData.Remarks ins ++ nl)
    ++ nl.
Proof.
  unfold inspectionBlock, shownDate, dateLine. cbn zeta.
  destruct (InspectionData.Remarks ins =? ""); cbn [negb];
    normalize_append; reflexivity.
Qed.

(** X2. In the report of a successful response, the pending offence at
    index k is shown as one block: its number k+1 with the offence text,
    then location, charge and penalty, reference, issue date and status,
    each field as the response has it. *)
Theorem FormatResult_offence_block (registration : string) (data : APIResponse.t)
    (k : nat) (txn : PendingTransaction.t)
    (Hstatus : APIResponse.Status data = "success")
    (Hoffence : nth_error (APIResponse.PendingTransactions data) k = Some txn) :
  Contains
    ("*" ++ itoa (Z.of_nat k + 1) ++ ".* " ++ PendingTransaction.Offence txn ++ nl
     ++ "   📍 " ++ PendingTransaction.Location txn ++ nl
     ++ "   💰 Charge: " ++ PendingTransaction.Charge txn
     ++ " | Penalty: " ++ PendingTransaction.Penalty txn ++ nl
     ++ "   🔖 Ref: " ++ PendingTransaction.Reference txn ++ nl
     ++ "   📅 Issued: " ++ PendingTransaction.IssuedDate txn ++ nl
     ++ "   📋 Status: " ++ PendingTransaction.Status txn ++ nl ++ nl)
    (FormatResult registration data).
Proof.
  rewrite (FormatResult_parts registration data Hstatus).
  rewrite <- offenceBlock_text.
  apply Contains_app_r, Contains_app_l. unfold pendingPart.
  pose proof (blocks_Contains offenceBlock _ k txn Hoffence) as Hc.
  destruct (APIResponse.PendingTransactions data) as [|t0 txns];
    [destruct k; discriminate|].
  skip_left. exact Hc.
Qed.

Lemma FormatResult_offence_block_witness :
  Contains
    ("*2.* Speeding" ++ nl
     ++ "   📍 Dar" ++ nl
     ++ "   💰 Charge: 10000 | Penalty: 20000" ++ nl
     ++ "   🔖 Ref: R1" ++ nl
     ++ "   📅 Issued: 2024-01-01" ++ nl
     ++ "   📋 Status: UNPAID" ++ nl ++ nl)
    (FormatResult "T945CAP" MoreSamples.noTotal).
Proof.
  exact (FormatResult_offence_block "T945CAP" MoreSamples.noTotal 1 Samples.offence
           eq_refl eq_refl).
Defined.

(** X3. When a successful response holds pending offences, the report
    shows their number and the total amount of the response, or [N/A] when
    the response has no total. *)
Theorem FormatResult_pending_total (registration : string) (data : APIResponse.t)
    (Hstatus : APIResponse.Status data = "success")
    (Hpending : APIResponse.PendingTransactions data <> []) :
  Contains
    ("⚠️ *Pending Offences: " ++ itoa (len (APIResponse.PendingTransactions data))
     ++ "* (Total: "
     ++ match APIResponse.TotalPendingAmount data with
        | Some amount => amount
        | None => "N/A"
        end
     ++ " TZS)" ++ nl ++ nl)
    (FormatResult registration data).
Proof.
  rewrite (FormatResult_parts registration data Hstatus).
  apply Contains_app_r, Contains_app_l. unfold pendingPart.
  destruct (APIResponse.PendingTransactions data) as [|t0 txns]; [contradiction|].
  exists "", (blocks offenceBlock (t0 :: txns)).
  normalize_append. reflexivity.
Qed.

Lemma FormatResult_pending_total_witness :
  Contains ("⚠️ *Pending Offences: 2* (Total: N/A TZS)" ++ nl ++ nl)
    (FormatResult "T945CAP" MoreSamples.noTotal).
Proof.
  apply (FormatResult_pending_total "T945CAP" MoreSamples.noTotal eq_refl).
  discriminate.
Defined.

(** X4. In the report of a successful response, the inspection record at
    index k is shown as one block: its number k+1 with reason and final
    result, the two dates, region and district, and a remarks line exactly
    when the remarks are not empty.  A shown date is never longer than 10
    bytes, and a date of at most 10 bytes is shown whole. *)
Theorem FormatResult_inspection_block (registration : string) (data : APIResponse.t)
    (k : nat) (ins : InspectionData.t)
    (Hstatus : APIResponse.Status data = "success")
    (Hrecord : nth_error (APIResponse.InspectionData data) k = Some ins) :
  Contains
    ("*" ++ itoa (Z.of_nat k + 1) ++ ".* " ++ InspectionData.ReasonEN ins
     ++ " — *" ++ InspectionData.FinalResult ins ++ "*" ++ nl
     ++ "   📅 " ++ shownDate (InspectionData.InspectionDate ins)
     ++ " → " ++ shownDate (InspectionData.ValidUntil ins) ++ nl
     ++ "   📍 " ++ InspectionData.Region ins ++ ", "
     ++ InspectionData.District ins ++ nl
     ++ (if InspectionData.Remarks ins =? "" then ""
         else "   📝 " ++ InspectionData.Remarks ins ++ nl)
     ++ nl)
    (FormatResult registration data)
  /\ (forall date,
        (String.length (shownDate date) <= 10)%nat
        /\ StartsWith (shownDate date) date
        /\ ((String.length date <= 10)%nat -> shownDate date = date)).
Proof.
  split; [|exact shownDate_spec].
  rewrite (FormatResult_parts registration data Hstatus).
  rewrite <- inspectionBlock_text.
  do 2 apply Contains_app_r. unfold inspectionPart.
  pose proof (blocks_Contains inspectionBlock _ k ins Hrecord) as Hc.
  destruct (APIResponse.InspectionData data) as [|r0 records];
    [destruct k; discriminate|].
  skip_left. exact Hc.
Qed.

Lemma FormatResult_inspection_block_witness :
  Contains
    ("*2.* Roadside check — *FAIL*" ++ nl
     ++ "   📅 2024-03-05 → n/a" ++ nl
     ++ "   📍 Arusha, Meru" ++ nl
     ++ "   📝 Brake lights" ++ nl
     ++ nl)
    (FormatResult "T267DFF" MoreSamples.noTotal).
Proof.
  exact (proj1 (FormatResult_inspection_block "T267DFF" MoreSamples.noTotal 1
                  MoreSamples.shortDated eq_refl eq_refl)).
Defined.

(** X5. Whatever the response, a report begins with the two header lines,
    the first of which names the registration. *)
Theorem FormatResult_starts_with_header (registration : string) (data : APIResponse.t) :
  StartsWith
    ("🚗 *RTOC Report for " ++ registration ++ "*" ++ nl
     ++ "━━━━━━━━━━━━━━━━━━━━━" ++ nl)
    (FormatResult registration data).
Proof.
  assert (Hh : "🚗 *RTOC Report for " ++ registration ++ "*" ++ nl
               ++ "━━━━━━━━━━━━━━━━━━━━━" ++ nl
               = reportHeader registration).
  { unfold reportHeader. normalize_append. reflexivity. }
  rewrite Hh.
  destruct (String.eqb_spec (APIResponse.Status data) "success") as [Hs|Hs].
  - rewrite (FormatResult_parts registration data Hs). now eexists.
  - exists noResultsLine. unfold FormatResult. cbn zeta.
    apply String.eqb_neq in Hs. rewrite Hs. cbn [negb].
    now rewrite FormatResult_header.
Qed.

(** ** The parsed vehicle list *)

Lemma upperByte_ascii (c : ascii) :
  (strings.byte (strings.upperByte c) <? strings.RuneSelf)%N
  = (strings.byte c <? strings.RuneSelf)%N.
Proof. destruct c as [[] [] [] [] [] [] [] []]; reflexivity. Qed.

Lemma upperByte_RuneSelf (c : ascii) :
  (strings.RuneSelf <=? strings.byte (strings.upperByte c))%N
  = (strings.RuneSelf <=? strings.byte c)%N.
Proof. destruct c as [[] [] [] [] [] [] [] []]; reflexivity. Qed.

Lemma upperByte_space (c : ascii) :
  strings.asciiSpace (strings.upperByte c) = strings.asciiSpace c.
Proof. destruct c as [[] [] [] [] [] [] [] []]; reflexivity. Qed.

Lemma upperByte_idempotent (c : ascii) :
  strings.upperByte (strings.upperByte c) = strings.upperByte c.
Proof. destruct c as [[] [] [] [] [] [] [] []]; reflexivity. Qed.

Lemma upperByte_comma (c : ascii) :
  strings.upperByte c = ","%char -> c = ","%char.
Proof. destruct c as [[] [] [] [] [] [] [] []]; cbv; congruence. Qed.

Lemma mapBytes_upper_ascii (s : string) :
  strings.isASCII (strings.mapBytes strings.upperByte s) = strings.isASCII s.
Proof.
  unfold strings.isASCII. induction s as [|c r IH]; [reflexivity|].
  cbn [strings.mapBytes bytes forallb]. now rewrite upperByte_ascii, IH.
Qed.

Lemma mapBytes_upper_idempotent (s : string) :
  strings.mapBytes strings.upperByte (strings.mapBytes strings.upperByte s)
  = strings.mapBytes strings.upperByte s.
Proof.
  induction s as [|c r IH]; [reflexivity|].
  cbn [strings.mapBytes]. now rewrite upperByte_idempotent, IH.
Qed.

Lemma mapBytes_upper_comma (s : string) :
  In ","%char (bytes (strings.mapBytes strings.upperByte s)) -> In ","%char (bytes s).
Proof.
  induction s as [|c r IH]; [intros []|].
  cbn [strings.mapBytes bytes In]. intros [H|H].
  - left. now apply upperByte_comma.
  - right. now apply IH.
Qed.


Lemma scanStart_upper (s : string) :
  strings.scanStart (strings.mapBytes strings.upperByte s)
  = mapScan (strings.mapBytes strings.upperByte) (strings.scanStart s).
Proof.
  induction s as [|c r IH]; [reflexivity|].
  cbn [strings.mapBytes strings.scanStart].
  rewrite upperByte_RuneSelf, upperByte_space.
  destruct (strings.RuneSelf <=? strings.byte c)%N; [reflexivity|].
  destruct (strings.asciiSpace c); [exact IH|reflexivity].
Qed.

Lemma scanStop_upper (s : string) :
  strings.scanStop (strings.mapBytes strings.upperByte s)
  = mapScan (strings.mapBytes strings.upperByte) (strings.scanStop s).
Proof.
  induction s as [|c r IH]; [reflexivity|].
  cbn [strings.mapBytes strings.scanStop]. rewrite IH.
  destruct (strings.scanStop r) as [t|t]; cbn [mapScan].
  - destruct t as [|c' t']; cbn [strings.mapBytes].
    + rewrite upperByte_RuneSelf, upperByte_space.
      destruct (strings.RuneSelf <=? strings.byte c)%N; [reflexivity|].
      destruct (strings.asciiSpace c); reflexivity.
    + reflexivity.
  - reflexivity.
Qed.

Lemma scanStart_length (s : string) :
  match strings.scanStart s with
  | strings.Stop t | strings.Fallback t => (String.length t <= String.length s)%nat
  end.
Proof.
  induction s as [|c r IH]; [simpl; lia|].
  cbn [strings.scanStart].
  destruct (strings.RuneSelf <=? strings.byte c)%N; [simpl; lia|].
  destruct (strings.asciiSpace c); [|simpl; lia].
  destruct (strings.scanStart r); simpl in *; lia.
Qed.

(** On ASCII text the first scan of [TrimSpace] stops, at a text that it
    would not cut further. *)
Lemma scanStart_ascii (s : string) :
  strings.isASCII s = true ->
  exists r,
    strings.scanStart s = strings.Stop r
    /\ strings.isASCII r = true
    /\ strings.scanStart r = strings.Stop r
    /\ (forall c, In c (bytes r) -> In c (bytes s))
    /\ ((r =? "") = forallb strings.asciiSpace (bytes s)).
Proof.
  unfold strings.isASCII.
  induction s as [|c r IH]; intros H.
  - exists "". repeat split; auto.
  - cbn [bytes forallb] in H. apply andb_true_iff in H as [Hc Hr].
    cbn [strings.scanStart].
    assert (Hself : (strings.RuneSelf <=? strings.byte c)%N = false).
    { apply N.leb_gt. now apply N.ltb_lt. }
    rewrite Hself.
    destruct (strings.asciiSpace c) eqn:Hsp.
    + destruct (IH Hr) as (t & Ht & Ha & Hfix & Hin & Hempty).
      exists t. repeat split; auto.
      * intros x Hx. right. now apply Hin.
      * cbn [bytes forallb]. now rewrite Hsp.
    + exists (String c r). repeat split; auto.
      * cbn [bytes forallb]. now rewrite Hc, Hr.
      * cbn [strings.scanStart]. now rewrite Hself, Hsp.
      * cbn [bytes forallb]. now rewrite Hsp.
Qed.

Lemma scanStop_ascii (s : string) :
  strings.isASCII s = true ->
  exists t,
    strings.scanStop s = strings.Stop t
    /\ strings.isASCII t = true
    /\ strings.scanStop t = strings.Stop t
    /\ (forall c, In c (bytes t) -> In c (bytes s))
    /\ (strings.scanStart s = strings.Stop s -> strings.scanStart t = strings.Stop t)
    /\ (s <> "" -> strings.scanStart s = strings.Stop s -> t <> "").
Proof.
  unfold strings.isASCII.
  induction s as [|c r IH]; intros H.
  - exists "". repeat split; auto.
  - cbn [bytes forallb] in H. apply andb_true_iff in H as [Hc Hr].
    assert (Hself : (strings.RuneSelf <=? strings.byte c)%N = false).
    { apply N.leb_gt. now apply N.ltb_lt. }
    destruct (IH Hr) as (t & Ht & Ha & Hfix & Hin & _ & _).
    cbn [strings.scanStop strings.scanStart]. rewrite Ht, Hself.
    destruct t as [|c' t'].
    + destruct (strings.asciiSpace c) eqn:Hsp.
      * exists "". split; [reflexivity|]. split; [reflexivity|].
        split; [reflexivity|]. split; [intros x []|]. split; [reflexivity|].
        intros _ Hstart. exfalso.
        pose proof (scanStart_length r) as Hlen. rewrite Hstart in Hlen.
        simpl in Hlen. lia.
      * exists (String c ""). repeat split; auto.
        -- cbn [bytes forallb]. now rewrite Hc.
        -- cbn [strings.scanStop]. now rewrite Hself, Hsp.
        -- intros x [<-|[]]. now left.
        -- intros _. cbn [strings.scanStart]. now rewrite Hself, Hsp.
        -- discriminate.
    + exists (String c (String c' t')). repeat split; auto.
      * cbn [bytes forallb] in *. now rewrite Hc, Ha.
      * change (strings.scanStop (String c (String c' t')))
          with (match strings.scanStop (String c' t') with
                | strings.Stop "" =>
                    if (strings.RuneSelf <=? strings.byte c)%N
                    then strings.Fallback (String c "")
                    else if strings.asciiSpace c then strings.Stop ""
                         else strings.Stop (String c "")
                | strings.Stop r' => strings.Stop (String c r')
                | strings.Fallback r' => strings.Fallback (String c r')
                end).
        now rewrite Hfix.
      * intros x [<-|Hx]; [now left|right; now apply Hin].
      * destruct (strings.asciiSpace c) eqn:Hsp.
        -- intros Hstart. exfalso.
           pose proof (scanStart_length r) as Hlen. rewrite Hstart in Hlen.
           simpl in Hlen. lia.
        -- intros _. cbn [strings.scanStart]. now rewrite Hself, Hsp.
      * discriminate.
Qed.

Lemma Split_ascii (s : string) (sep : ascii) :
  strings.isASCII s = true ->
  Forall (fun p => strings.isASCII p = true) (strings.Split s sep).
Proof.
  unfold strings.isASCII.
  induction s as [|c r IH]; intros H.
  - constructor; [reflexivity|constructor].
  - cbn [bytes forallb] in H. apply andb_true_iff in H as [Hc Hr].
    specialize (IH Hr). cbn [strings.Split].
    destruct (Ascii.eqb c sep).
    + constructor; [reflexivity|exact IH].
    + destruct (strings.Split r sep) as [|p ps].
      * constructor; [|constructor]. cbn [bytes forallb]. now rewrite Hc.
      * inversion IH as [|? ? Hp Hps]; subst.
        constructor; [|exact Hps]. cbn [bytes forallb]. now rewrite Hc, Hp.
Qed.

(** A text is made of separators and bytes that satisfy [f] exactly when
    every piece is made of bytes that satisfy [f]. *)
Lemma Split_forallb (f : ascii -> bool) (s : string) (sep : ascii) :
  forallb (fun c => f c || Ascii.eqb c sep) (bytes s)
  = forallb (fun p => forallb f (bytes p)) (strings.Split s sep).
Proof.
  induction s as [|c r IH]; [reflexivity|].
  cbn [bytes forallb strings.Split]. rewrite IH.
  destruct (Ascii.eqb c sep) eqn:E.
  - rewrite orb_true_r. reflexivity.
  - rewrite orb_false_r.
    pose proof (Split_nonempty r sep) as Hn.
    destruct (strings.Split r sep) as [|p ps]; [contradiction|].
    cbn [forallb bytes]. now rewrite andb_assoc.
Qed.

Lemma Split_single (p : string) (sep : ascii) :
  ~ In sep (bytes p) -> strings.Split p sep = [p].
Proof.
  induction p as [|c r IH]; intros H; [reflexivity|].
  cbn [strings.Split]. cbn [bytes In] in H.
  destruct (Ascii.eqb_spec c sep) as [->|Hne]; [tauto|].
  rewrite IH by tauto. reflexivity.
Qed.

Lemma Split_piece (p rest : string) (sep : ascii) :
  ~ In sep (bytes p) ->
  strings.Split (p ++ String sep rest) sep = p :: strings.Split rest sep.
Proof.
  induction p as [|c r IH]; intros H.
  - cbn [append strings.Split]. now rewrite Ascii.eqb_refl.
  - cbn [append strings.Split]. cbn [bytes In] in H.
    destruct (Ascii.eqb_spec c sep) as [->|Hne]; [tauto|].
    rewrite IH by tauto. reflexivity.
Qed.

(** Splitting the join of pieces that hold no separator gives the pieces
    back. *)
Lemma Split_join (l : list string) (sep : ascii) :
  l <> [] ->
  Forall (fun p => ~ In sep (bytes p)) l ->
  strings.Split (String.concat (String sep "") l) sep = l.
Proof.
  induction l as [|x l IH]; intros Hne Hall; [contradiction|].
  inversion Hall as [|? ? Hx Hl]; subst.
  destruct l as [|y l'].
  - cbn [String.concat]. now apply Split_single.
  - rewrite concat_cons. cbn [append].
    rewrite Split_piece by exact Hx.
    rewrite IH; [reflexivity|discriminate|exact Hl].
Qed.

Lemma filter_nil_forallb {A} (f : A -> bool) (l : list A) :
  filter f l = [] <-> forallb (fun x => negb (f x)) l = true.
Proof.
  induction l as [|x l IH]; [tauto|].
  cbn [filter forallb]. destruct (f x); cbn [negb andb].
  - split; discriminate.
  - exact IH.
Qed.

Section ParsedList.

Variable TrimFunc_IsSpace : string -> string.
Variable TrimRightFunc_IsSpace : string -> string.
Variable Map_ToUpper : string -> string.

Local Notation "'trim'" := (TrimSpace TrimFunc_IsSpace TrimRightFunc_IsSpace).
Local Notation "'upper'" := (ToUpper Map_ToUpper).
Local Notation "'parse'" :=
  (ParseVehicles TrimFunc_IsSpace TrimRightFunc_IsSpace Map_ToUpper).
Local Notation "'normalized'" :=
  (normalizedRegistration TrimFunc_IsSpace TrimRightFunc_IsSpace Map_ToUpper).

Lemma TrimSpace_ascii (p : string) :
  strings.isASCII p = true ->
  strings.isASCII (trim p) = true
  /\ strings.scanStart (trim p) = strings.Stop (trim p)
  /\ strings.scanStop (trim p) = strings.Stop (trim p)
  /\ (forall c, In c (bytes (trim p)) -> In c (bytes p))
  /\ ((trim p =? "") = forallb strings.asciiSpace (bytes p)).
Proof.
  intros Hp. unfold TrimSpace.
  destruct (scanStart_ascii p Hp) as (r & Hr & Har & Hrfix & Hrin & Hrempty).
  destruct (scanStop_ascii r Har) as (t & Ht & Hat & Htfix & Htin & Htstart & Htne).
  rewrite Hr, Ht.
  repeat split; auto.
  rewrite <- Hrempty.
  destruct r as [|c r'].
  - cbn in Ht. injection Ht as <-. reflexivity.
  - assert (t <> "") by (apply Htne; [discriminate|exact Hrfix]).
    destruct t; [contradiction|reflexivity].
Qed.

Lemma TrimSpace_fixed (t : string) :
  strings.scanStart t = strings.Stop t ->
  strings.scanStop t = strings.Stop t ->
  trim t = t.
Proof. intros H1 H2. unfold TrimSpace. now rewrite H1, H2. Qed.

Lemma ToUpper_ascii_bytes (v : string) :
  strings.isASCII v = true -> upper v = strings.mapBytes strings.upperByte v.
Proof. intros H. unfold ToUpper. now rewrite H. Qed.


Lemma normalized_upper_trim (p : string) :
  strings.isASCII p = true ->
  ~ In ","%char (bytes p) ->
  trim p <> "" ->
  normalized (upper (trim p)).
Proof.
  intros Hp Hcomma Hne.
  destruct (TrimSpace_ascii p Hp) as (Ha & Hstart & Hstop & Hin & _).
  rewrite (ToUpper_ascii_bytes _ Ha).
  set (t := trim p) in *.
  assert (Hua : strings.isASCII (strings.mapBytes strings.upperByte t) = true)
    by now rewrite mapBytes_upper_ascii.
  split; [|split; [|split; [|split]]].
  - destruct t; [contradiction|discriminate].
  - intros H. apply mapBytes_upper_comma in H. apply Hcomma, Hin, H.
  - exact Hua.
  - apply TrimSpace_fixed.
    + now rewrite scanStart_upper, Hstart.
    + now rewrite scanStop_upper, Hstop.
  - rewrite (ToUpper_ascii_bytes _ Hua). apply mapBytes_upper_idempotent.
Qed.

Lemma ParseVehicles_pipeline (vehicles : string) :
  parse vehicles
  = map upper (filter (fun v => negb (v =? "")) (map trim (strings.Split vehicles ","))).
Proof. unfold ParseVehicles. now rewrite ParseVehicles_loop. Qed.

Lemma ParseVehicles_normalized (vehicles : string) :
  strings.isASCII vehicles = true -> Forall normalized (parse vehicles).
Proof.
  intros Hs. rewrite ParseVehicles_pipeline.
  apply Forall_forall. intros v Hv.
  apply in_map_iff in Hv as (t & <- & Ht).
  apply filter_In in Ht as [Ht Hne].
  apply in_map_iff in Ht as (p & <- & Hp).
  pose proof (Split_ascii vehicles "," Hs) as Hascii.
  pose proof (Split_no_sep vehicles ",") as Hsep.
  rewrite Forall_forall in Hascii, Hsep.
  apply normalized_upper_trim; [now apply Hascii|now apply Hsep|].
  apply negb_true_iff, String.eqb_neq in Hne. exact Hne.
Qed.

Lemma pipeline_on_normalized (l : list string) :
  Forall normalized l ->
  map upper (filter (fun v => negb (v =? "")) (map trim l)) = l.
Proof.
  induction 1 as [|v l (Hne & _ & _ & Htrim & Hupper) Hl IH]; [reflexivity|].
  cbn [map filter]. rewrite Htrim.
  apply String.eqb_neq in Hne. rewrite Hne. cbn [negb map].
  now rewrite Hupper, IH.
Qed.

(** X6. For ASCII input, every registration that [ParseVehicles] returns is
    non-empty, holds no comma, and is left unchanged by [TrimSpace] and by
    [ToUpper]: it has no white space at either end and no lower-case
    letter. *)
Theorem ParseVehicles_registrations_normalized (vehicles : string)
    (Hascii : strings.isASCII vehicles = true) :
  Forall (fun v => v <> "" /\ ~ In ","%char (bytes v) /\ trim v = v /\ upper v = v)
    (parse vehicles).
Proof.
  apply (Forall_impl _ (P := normalized)); [|now apply ParseVehicles_normalized].
  intros v (H1 & H2 & _ & H3 & H4). auto.
Qed.

(** X7. For ASCII input, joining the parsed list with commas and parsing
    it again gives the same list. *)
Theorem ParseVehicles_join_round_trip (vehicles : string)
    (Hascii : strings.isASCII vehicles = true) :
  parse (String.concat "," (parse vehicles)) = parse vehicles.
Proof.
  pose proof (ParseVehicles_normalized vehicles Hascii) as Hn.
  destruct (parse vehicles) as [|v l] eqn:E; [reflexivity|].
  rewrite ParseVehicles_pipeline.
  rewrite Split_join.
  - now apply pipeline_on_normalized.
  - discriminate.
  - apply (Forall_impl _ (P := normalized)); [|exact Hn].
    intros x (_ & H & _). exact H.
Qed.

(** X8. For ASCII input, [ParseVehicles] returns no registration exactly
    when the input is made of commas and ASCII white space only (the empty
    input included). *)
Theorem ParseVehicles_empty_iff_blank (vehicles : string)
    (Hascii : strings.isASCII vehicles = true) :
  parse vehicles = [] <-> forallb isSpaceOrComma (bytes vehicles) = true.
Proof.
  rewrite ParseVehicles_pipeline.
  unfold isSpaceOrComma. rewrite Split_forallb.
  pose proof (Split_ascii vehicles "," Hascii) as Hpieces.
  induction (strings.Split vehicles ",") as [|p ps IH]; [cbn; tauto|].
  inversion Hpieces as [|? ? Hp Hps]; subst. specialize (IH Hps).
  destruct (TrimSpace_ascii p Hp) as (_ & _ & _ & _ & Hempty).
  cbn [map filter forallb]. rewrite <- Hempty.
  destruct (trim p =? ""); cbn [negb andb map].
  - exact IH.
  - split; discriminate.
Qed.

End ParsedList.

Lemma ParseVehicles_registrations_normalized_witness :
  Forall (fun v => v <> "" /\ ~ In ","%char (bytes v)
                   /\ TrimSpace (fun s => s) (fun s => s) v = v
                   /\ ToUpper (fun s => s) v = v)
    ["T945CAP"; "T267DFF"].
Proof.
  exact (ParseVehicles_registrations_normalized (fun s => s) (fun s => s) (fun s => s)
           " t945cap , T267DFF ,," eq_refl).
Defined.

Lemma ParseVehicles_join_round_trip_witness :
  ParseVehicles (fun s => s) (fun s => s) (fun s => s) "T945CAP,T267DFF"
  = ["T945CAP"; "T267DFF"].
Proof.
  exact (ParseVehicles_join_round_trip (fun s => s) (fun s => s) (fun s => s)
           " t945cap , T267DFF ,," eq_refl).
Defined.

Lemma ParseVehicles_empty_iff_blank_witness :
  ParseVehicles (fun s => s) (fun s => s) (fun s => s) " , ,, " = [].
Proof.
  exact (proj2 (ParseVehicles_empty_iff_blank (fun s => s) (fun s => s) (fun s => s)
                  " , ,, " eq_refl) eq_refl).
Defined.

(** ** The lookup client *)

Lemma posts_app (a b : list event) : posts (a ++ b) = (posts a ++ posts b)%list.
Proof. apply flat_map_app. Qed.

Lemma sleeps_app (a b : list event) : sleeps (a ++ b) = (sleeps a ++ sleeps b)%list.
Proof. apply flat_map_app. Qed.

(** Runs the monad and splits on what the world answers, innermost first. *)
Ltac run_monad :=
  unfold sendOrLog, checkAllVehicles_body, onDemand_body, CheckVehicle,
    call_notify, bind, ret, emit, on_world, slog_Info, slog_Error, time_Sleep,
    read_apiURL, result_of, state_of, events_of;
  repeat (cbn;
          match goal with
          | |- context [match ?x with _ => _ end] =>
              lazymatch x with
              | context [match _ with _ => _ end] => fail
              | _ => destruct x eqn:?
              end
          end);
  cbn.

Section LookupClient.

Variable World : Type.
Variable json_Marshal : string -> error + string.
Variable client_Post : string -> string -> World -> (error + http.Response) * World.

Lemma state_bind {A B} (m : M World A) (f : A -> M World B) (s : State World) :
  state_of (bind m f s) = state_of (f (result_of (m s)) (state_of (m s))).
Proof.
  unfold bind, result_of, state_of.
  destruct (m s) as [[a s1] e1]. simpl.
  destruct (f a s1) as [[b s2] e2]. reflexivity.
Qed.

Lemma result_bind {A B} (m : M World A) (f : A -> M World B) (s : State World) :
  result_of (bind m f s) = result_of (f (result_of (m s)) (state_of (m s))).
Proof.
  unfold bind, result_of, state_of.
  destruct (m s) as [[a s1] e1]. simpl.
  destruct (f a s1) as [[b s2] e2]. reflexivity.
Qed.

(** X9. [CheckVehicle] returns a decoded response exactly when the payload
    could be built, the request was answered with status 200 and the body
    of the answer could be decoded; it then returns that decoding. *)
Theorem CheckVehicle_success_iff (registration : string) (s : State World)
    (data : APIResponse.t) :
  result_of (CheckVehicle json_Marshal client_Post registration s) = inr data
  <-> exists payload resp,
        json_Marshal registration = inr payload
        /\ fst (client_Post (apiURL World s) payload (world World s)) = inr resp
        /\ http.StatusCode resp = 200%Z
        /\ http.Body resp = inr data.
Proof.
  unfold CheckVehicle, bind, ret, emit, on_world, read_apiURL, result_of.
  destruct (json_Marshal registration) as [merr|payload]; cbn.
  - split; [discriminate|]. intros (p & r & H & _). discriminate.
  - destruct (client_Post (apiURL World s) payload (world World s))
      as [[perr|resp] w] eqn:Hpost; cbn.
    + split; [discriminate|]. intros (p & r & [= <-] & H & _).
      rewrite Hpost in H. discriminate.
    + destruct (http.StatusCode resp =? http.StatusOK)%Z eqn:Hok; cbn.
      * apply Z.eqb_eq in Hok.
        destruct (http.Body resp) as [derr|decoded] eqn:Hbody; cbn.
        -- split; [discriminate|].
           intros (p & r & [= <-] & H & _ & Hb).
           rewrite Hpost in H. cbn in H. injection H as <-. congruence.
        -- split.
           ++ intros [= <-]. exists payload, resp. rewrite Hpost. auto.
           ++ intros (p & r & [= <-] & H & _ & Hb).
              rewrite Hpost in H. cbn in H. injection H as <-. congruence.
      * apply Z.eqb_neq in Hok. unfold http.StatusOK in Hok.
        destruct (http.StatusCode resp =? http.StatusTooManyRequests)%Z; cbn;
          (split; [discriminate|]);
          intros (p & r & [= <-] & H & Hs & _);
          rewrite Hpost in H; cbn in H; injection H as <-; contradiction.
Qed.

(** X10. One call of [CheckVehicle] sends at most one request: none when
    the payload cannot be built, otherwise exactly one, with that payload,
    to the URL that [apiURL] holds.  It never sleeps, never notifies and
    leaves [apiURL] as it is. *)
Theorem CheckVehicle_single_request (registration : string) (s : State World) :
  let run := CheckVehicle json_Marshal client_Post registration s in
  posts (events_of run)
  = match json_Marshal registration with
    | inl _ => []
    | inr payload => [(apiURL World s, payload)]
    end
  /\ sleeps (events_of run) = []
  /\ notifications (events_of run) = []
  /\ lookups (events_of run) = [(registration, result_of run)]
  /\ apiURL World (state_of run) = apiURL World s.
Proof.
  cbn zeta. run_monad; repeat split; reflexivity.
Qed.

(** X11. A failure of the transport or of the decoder is passed on
    wrapped: the text of the error is the prefix of the step followed by
    the text of the cause, and the cause stays reachable behind a
    [*fmt.wrapError]. *)
Theorem CheckVehicle_wraps_cause (registration payload : string) (s : State World)
    (Hpayload : json_Marshal registration = inr payload) :
  let r := result_of (CheckVehicle json_Marshal client_Post registration s) in
  (forall cause,
     fst (client_Post (apiURL World s) payload (world World s)) = inl cause ->
     exists err,
       r = inl err
       /\ Error err = "post request: " ++ Error cause
       /\ errorKind err = "*fmt.wrapError" :: errorKind cause)
  /\ (forall resp cause,
        fst (client_Post (apiURL World s) payload (world World s)) = inr resp ->
        http.StatusCode resp = 200%Z ->
        http.Body resp = inl cause ->
        exists err,
          r = inl err
          /\ Error err = "decode response: " ++ Error cause
          /\ errorKind err = "*fmt.wrapError" :: errorKind cause).
Proof.
  cbn zeta.
  unfold CheckVehicle, bind, ret, emit, on_world, read_apiURL, result_of.
  rewrite Hpayload. cbn.
  destruct (client_Post (apiURL World s) payload (world World s)) as [[perr|resp] w];
    cbn; split.
  - intros cause [= <-]. eexists. split; [reflexivity|]. split; reflexivity.
  - intros r cause H. discriminate.
  - intros cause H. discriminate.
  - intros r cause [= <-] Hs Hb. rewrite Hs, Hb. cbn.
    eexists. split; [reflexivity|]. split; reflexivity.
Qed.

(** X12. For an answer with a status other than 200 the result depends on
    the status alone, whatever the body: the rate-limit error for 429, and
    otherwise the error whose text ends with the status in decimal. *)
Theorem CheckVehicle_other_status (registration : string) (s : State World)
    (status : Z)
    (Hanswer : answeredStatus json_Marshal client_Post registration s = Some status)
    (Hstatus : status <> 200%Z) :
  result_of (CheckVehicle json_Marshal client_Post registration s)
  = inl (if (status =? 429)%Z then rateLimited
         else errorString ("unexpected status code: " ++ itoa status)).
Proof.
  revert Hanswer.
  unfold answeredStatus, CheckVehicle, bind, ret, emit, on_world, read_apiURL,
    result_of.
  destruct (json_Marshal registration) as [merr|payload]; cbn; [discriminate|].
  destruct (client_Post (apiURL World s) payload (world World s)) as [[perr|resp] w];
    cbn; [discriminate|].
  intros [= ->].
  apply Z.eqb_neq in Hstatus. unfold http.StatusOK. rewrite Hstatus.
  unfold http.StatusTooManyRequests.
  destruct (status =? 429)%Z; reflexivity.
Qed.

End LookupClient.

Lemma CheckVehicle_wraps_cause_witness :
  exists err,
    result_of (Script.CheckVehicle "T945CAP" (Script.start [] [])) = inl err
    /\ Error err = "post request: connection refused"
    /\ errorKind err = ["*fmt.wrapError"; "*url.Error"].
Proof.
  exact (proj1 (CheckVehicle_wraps_cause Script.t Script.marshal Script.post
                  "T945CAP" _ (Script.start [] []) eq_refl)
           (libraryError "*url.Error" "connection refused") eq_refl).
Defined.

Lemma CheckVehicle_other_status_witness :
  result_of (Script.CheckVehicle "T945CAP" (answering 503))
  = inl (errorString "unexpected status code: 503").
Proof.
  apply (CheckVehicle_other_status Script.t Script.marshal Script.post
           "T945CAP" (answering 503) 503%Z).
  - reflexivity.
  - discriminate.
Defined.

(** ** The two sequencers side by side *)

Section Sequencers.

Variable World : Type.
Variable json_Marshal : string -> error + string.
Variable client_Post : string -> string -> World -> (error + http.Response) * World.
Variable bot_Send : string -> World -> option error * World.

Lemma checkAllVehicles_body_requests (notify : NotifyFunc World) (i : Z) (reg : string)
    (s : State World) :
  posts (events_of (checkAllVehicles_body json_Marshal client_Post notify i reg s))
  = requestOf json_Marshal (apiURL World s) reg
  /\ apiURL World (state_of (checkAllVehicles_body json_Marshal client_Post notify i reg s))
     = apiURL World s.
Proof. unfold requestOf. run_monad; split; reflexivity. Qed.

Lemma onDemand_body_requests (i : Z) (reg : string) (s : State World) :
  posts (events_of (onDemand_body json_Marshal client_Post bot_Send i reg s))
  = requestOf json_Marshal (apiURL World s) reg
  /\ apiURL World (state_of (onDemand_body json_Marshal client_Post bot_Send i reg s))
     = apiURL World s.
Proof. unfold requestOf. run_monad; split; reflexivity. Qed.

Lemma for_range_from_requests (body : Z -> string -> M World unit) :
  (forall i reg s,
     posts (events_of (body i reg s)) = requestOf json_Marshal (apiURL World s) reg
     /\ apiURL World (state_of (body i reg s)) = apiURL World s) ->
  forall vehicles i s,
    posts (events_of (for_range_from i vehicles body s))
    = flat_map (requestOf json_Marshal (apiURL World s)) vehicles
    /\ apiURL World (state_of (for_range_from i vehicles body s)) = apiURL World s.
Proof.
  intros Hbody vehicles.
  induction vehicles as [|reg rest IH]; intros i s.
  - split; reflexivity.
  - cbn [for_range_from flat_map].
    rewrite events_bind, state_bind, posts_app.
    destruct (Hbody i reg s) as [Hp Hu].
    destruct (IH (i + 1)%Z (state_of (body i reg s))) as [IHp IHu].
    rewrite Hp, IHp, IHu, Hu. split; reflexivity.
Qed.

Lemma checkAllVehicles_posts (vehicles : list string) (notify : NotifyFunc World)
    (s : State World) :
  posts (events_of (checkAllVehicles json_Marshal client_Post vehicles notify s))
  = flat_map (requestOf json_Marshal (apiURL World s)) vehicles
  /\ apiURL World (state_of (checkAllVehicles json_Marshal client_Post vehicles notify s))
     = apiURL World s.
Proof.
  unfold checkAllVehicles, for_range.
  rewrite !events_bind, !state_bind, !posts_app.
  destruct (for_range_from_requests
              (checkAllVehicles_body json_Marshal client_Post notify)
              (checkAllVehicles_body_requests notify) vehicles 0%Z
              (state_of (slog_Info "starting daily vehicle check" s))) as [Hp Hu].
  rewrite Hp. cbn [slog_Info emit events_of state_of posts flat_map fst snd app].
  split; [now rewrite app_nil_r|].
  cbn [slog_Info emit events_of state_of fst snd] in Hu. exact Hu.
Qed.

(** X13. One sweep sends one request per vehicle whose payload can be
    built, in the order of the list and never a second one for a vehicle,
    each to the URL that [apiURL] held when the sweep began; the sweep
    leaves [apiURL] as it was. *)
Theorem checkAllVehicles_requests (vehicles : list string) (notify : NotifyFunc World)
    (s : State World) :
  let run := checkAllVehicles json_Marshal client_Post vehicles notify s in
  posts (events_of run) = flat_map (requestOf json_Marshal (apiURL World s)) vehicles
  /\ (List.length (posts (events_of run)) <= List.length vehicles)%nat
  /\ Forall (fun request => fst request = apiURL World s) (posts (events_of run))
  /\ apiURL World (state_of run) = apiURL World s.
Proof.
  cbn zeta.
  destruct (checkAllVehicles_posts vehicles notify s) as [Hp Hu]. rewrite Hp.
  split; [reflexivity|]. split; [|split; [|exact Hu]].
  - clear. induction vehicles as [|reg rest IH]; [simpl; lia|].
    cbn [flat_map]. rewrite length_app. unfold requestOf at 1.
    destruct (json_Marshal reg); simpl; lia.
  - clear. induction vehicles as [|reg rest IH]; [constructor|].
    cbn [flat_map]. apply Forall_app. split; [|exact IH].
    unfold requestOf. destruct (json_Marshal reg); repeat constructor.
Qed.

(** X26. After [SetAPIURL], every request of a sweep goes to the URL that
    was set, whatever [apiURL] held before; of two calls of [SetAPIURL] in
    a row the second one counts. *)
Theorem SetAPIURL_directs_requests (url earlier : string) (vehicles : list string)
    (notify : NotifyFunc World) (s : State World) :
  posts (events_of
    (bind (SetAPIURL url)
       (fun _ => checkAllVehicles json_Marshal client_Post vehicles notify) s))
  = flat_map (requestOf json_Marshal url) vehicles
  /\ posts (events_of
       (bind (SetAPIURL earlier)
          (fun _ => bind (SetAPIURL url)
             (fun _ => checkAllVehicles json_Marshal client_Post vehicles notify)) s))
     = flat_map (requestOf json_Marshal url) vehicles.
Proof.
  rewrite !events_bind, !posts_app.
  split.
  - destruct (checkAllVehicles_posts vehicles notify (state_of (SetAPIURL url s)))
      as [-> _]. reflexivity.
  - destruct (checkAllVehicles_posts vehicles notify
                (state_of (SetAPIURL url (state_of (SetAPIURL earlier s)))))
      as [-> _]. reflexivity.
Qed.

(** X14. The loop of the [/check] command looks every registration up, in
    order; it sleeps 10 minutes before every lookup but the first, and
    after each lookup and before the next sleep it sends one text about
    it: the line "Failed to check" with the registration and the text of
    the error when the lookup failed, the formatted report otherwise. *)
Theorem onDemandCheck_reports_every_lookup (registrations : list string)
    (s : State World) :
  let evs :=
    events_of (onDemandCheck json_Marshal client_Post bot_Send registrations s) in
  let text := fun (reg : string) (r : lookup_result) =>
    match r with
    | inl err => "❌ Failed to check *" ++ reg ++ "*: " ++ Error err
    | inr data => FormatResult reg data
    end in
  map fst (lookups evs) = registrations
  /\ marks evs = rounds_from (10 * time.Minute)%Z text true (lookups evs)
  /\ notifications evs = map (fun looked => text (fst looked) (snd looked)) (lookups evs)
  /\ sleeps evs = repeat (10 * time.Minute)%Z (List.length registrations - 1).
Proof.
  cbn zeta.
  destruct (onDemandCheck_trace World json_Marshal client_Post bot_Send registrations s)
    as [Hs Hn].
  split; [|split; [|split]].
  - rewrite <- checks_schedule, Hs. apply checks_cooldown_plan.
  - exact (onDemandCheck_rounds World json_Marshal client_Post bot_Send registrations s).
  - exact Hn.
  - rewrite <- waits_schedule, Hs. apply waits_cooldown_plan.
Qed.

End Sequencers.

(** ** Successive triggers *)

Section Triggers.

Local Open Scope Z_scope.


(** Every trigger is the 18:00 of some local day, not before now and less
    than a day after now. *)
Lemma nextRun_slot (now : time.Time) :
  exists k,
    nextRun now = startOfDay k
    /\ time.unixNano now <= time.unixNano (startOfDay k)
       < time.unixNano now + 86400000000000.
Proof.
  pose proof (localDay_bounds now) as Hday. cbn zeta in Hday.
  rewrite nextRun_unfold, todayAtStart_shape.
  generalize dependent (time.localDay (time.In now eat)). intros day Hday.
  rewrite Add_day_shape. unfold time.After. cbn [time.In time.unixNano].
  destruct ((day * 86400 + 54000) * 1000000000 <? time.unixNano now) eqn:Hafter.
  - apply Z.ltb_lt in Hafter. exists (day + 1). unfold startOfDay.
    cbn [time.unixNano]. split; [reflexivity|lia].
  - apply Z.ltb_ge in Hafter. exists day. unfold startOfDay.
    cbn [time.unixNano]. split; [reflexivity|lia].
Qed.

Lemma nextRun_from_slot (k d : Z) :
  0 <= d <= 86400000000000 ->
  nextRun (time.Add (startOfDay k) d)
  = if 0 <? d then startOfDay (k + 1) else startOfDay k.
Proof.
  intros Hd.
  pose proof (localDay_bounds (time.Add (startOfDay k) d)) as Hday. cbn zeta in Hday.
  rewrite nextRun_unfold, todayAtStart_shape.
  generalize dependent (time.localDay (time.In (time.Add (startOfDay k) d) eat)).
  intros day Hday.
  rewrite Add_day_shape. unfold time.After, time.Add, startOfDay in *.
  cbn [time.In time.unixNano time.loc] in *.
  assert (Hk : day = k \/ day = k + 1) by lia.
  destruct (Z.ltb_spec 0 d) as [Hpos|Hzero].
  - destruct Hk as [->| ->].
    + replace ((k * 86400 + 54000) * 1000000000
               <? (k * 86400 + 54000) * 1000000000 + d) with true
        by (symmetry; apply Z.ltb_lt; lia).
      reflexivity.
    + replace (((k + 1) * 86400 + 54000) * 1000000000
               <? (k * 86400 + 54000) * 1000000000 + d) with false
        by (symmetry; apply Z.ltb_ge; lia).
      reflexivity.
  - assert (d = 0) by lia. subst d.
    assert (day = k) by lia. subst day.
    replace ((k * 86400 + 54000) * 1000000000
             <? (k * 86400 + 54000) * 1000000000 + 0) with false
      by (symmetry; apply Z.ltb_ge; lia).
    reflexivity.
Qed.

(** X16. The trigger computed at a trigger is that trigger itself: the
    computation is idempotent. *)
Theorem nextRun_idempotent (now : time.Time) :
  nextRun (nextRun now) = nextRun now.
Proof.
  destruct (nextRun_slot now) as (k & -> & _).
  pose proof (nextRun_from_slot k 0 ltac:(lia)) as H.
  unfold time.Add in H. cbn [startOfDay time.unixNano time.loc] in H.
  rewrite Z.add_0_r in H. exact H.
Qed.

(** X17. At any instant later than a trigger by at most 24 hours, the
    next trigger is exactly 24 hours after that trigger. *)
Theorem nextRun_next_day (now : time.Time) (d : time.Duration)
    (Hpositive : 0 < d) (Hday : d <= 24 * time.Hour) :
  nextRun (time.Add (nextRun now) d) = time.Add (nextRun now) (24 * time.Hour).
Proof.
  destruct (nextRun_slot now) as (k & -> & _).
  assert (H24 : 24 * time.Hour = 86400000000000) by reflexivity.
  rewrite H24 in *.
  rewrite nextRun_from_slot by lia.
  apply Z.ltb_lt in Hpositive. rewrite Hpositive.
  unfold time.Add, startOfDay. cbn [time.unixNano time.loc]. f_equal. lia.
Qed.

(** X18. A later instant never gets an earlier trigger. *)
Theorem nextRun_monotone (now later : time.Time)
    (Hlater : time.unixNano now <= time.unixNano later) :
  time.unixNano (nextRun now) <= time.unixNano (nextRun later).
Proof.
  destruct (nextRun_slot now) as (k1 & -> & H1).
  destruct (nextRun_slot later) as (k2 & -> & H2).
  unfold startOfDay in *. cbn [time.unixNano] in *.
  assert (k1 <= k2) by lia. lia.
Qed.

End Triggers.

Lemma nextRun_next_day_witness :
  nextRun (time.Add (nextRun (time.Date 2024 1 1 17 0 0 0 eat)) (90 * time.Minute)%Z)
  = time.Date 2024 1 2 18 0 0 0 eat.
Proof.
  rewrite (nextRun_next_day (time.Date 2024 1 1 17 0 0 0 eat) (90 * time.Minute)%Z).
  - reflexivity.
  - reflexivity.
  - discriminate.
Defined.

Lemma nextRun_monotone_witness :
  (time.unixNano (nextRun (time.Date 2024 1 1 17 0 0 0 eat))
   <= time.unixNano (nextRun (time.Date 2024 1 1 19 0 0 0 eat)))%Z.
Proof.
  apply (nextRun_monotone (time.Date 2024 1 1 17 0 0 0 eat)
           (time.Date 2024 1 1 19 0 0 0 eat)).
  discriminate.
Defined.

(** ** The loop of the scheduler *)

Section SchedulerLoop.

Variable World : Type.
Variable json_Marshal : string -> error + string.
Variable client_Post : string -> string -> World -> (error + http.Response) * World.
Variable time_Now : World -> time.Time * World.


Lemma StartScheduler_turn_events (vehicles : list string) (notify : NotifyFunc World)
    (s : State World) :
  exists s',
    events_of (StartScheduler_turn json_Marshal client_Post time_Now vehicles notify s)
    = Logged "INFO" "next scheduled run"
      :: Slept (time.Sub (nextRun (firstReading time_Now s)) (secondReading time_Now s))
      :: events_of (checkAllVehicles json_Marshal client_Post vehicles notify s').
Proof.
  unfold StartScheduler_turn, firstReading, secondReading.
  unfold bind, on_world, slog_Info, time_Sleep, emit, events_of.
  destruct (time_Now (world World s)) as [t1 w1]. cbn [world apiURL fst snd].
  destruct (time_Now w1) as [t2 w2]. cbn [world apiURL fst snd].
  exists {| world := w2; apiURL := apiURL World s |}.
  destruct (checkAllVehicles json_Marshal client_Post vehicles notify
              {| world := w2; apiURL := apiURL World s |}) as [[u s3] evs].
  reflexivity.
Qed.

Lemma StartScheduler_turn_trace (vehicles : list string) (notify : NotifyFunc World)
    (s : State World) :
  let evs :=
    events_of (StartScheduler_turn json_Marshal client_Post time_Now vehicles notify s) in
  sleeps evs
  = time.Sub (nextRun (firstReading time_Now s)) (secondReading time_Now s)
    :: repeat (gapMinutes * time.Minute)%Z (List.length vehicles - 1)
  /\ map fst (lookups evs) = vehicles
  /\ notifications evs = map report (lookups evs).
Proof.
  cbn zeta.
  destruct (StartScheduler_turn_events vehicles notify s) as (s' & ->).
  destruct (checkAllVehicles_trace World json_Marshal client_Post vehicles notify s')
    as [Hs Hn].
  cbn [sleeps lookups notifications flat_map app].
  fold (sleeps (events_of (checkAllVehicles json_Marshal client_Post vehicles notify s'))).
  fold (lookups (events_of (checkAllVehicles json_Marshal client_Post vehicles notify s'))).
  fold (notifications
          (events_of (checkAllVehicles json_Marshal client_Post vehicles notify s'))).
  split; [|split].
  - rewrite <- waits_schedule, Hs, waits_cooldown_plan. reflexivity.
  - rewrite <- checks_schedule, Hs. apply checks_cooldown_plan.
  - exact Hn.
Qed.

Lemma StartScheduler_turn_rounds (vehicles : list string) (notify : NotifyFunc World)
    (s : State World) :
  marks (events_of
           (StartScheduler_turn json_Marshal client_Post time_Now vehicles notify s))
  = Waited (time.Sub (nextRun (firstReading time_Now s)) (secondReading time_Now s))
    :: rounds_from (gapMinutes * time.Minute)%Z toldText true
         (lookups (events_of
            (StartScheduler_turn json_Marshal client_Post time_Now vehicles notify s))).
Proof.
  destruct (StartScheduler_turn_events vehicles notify s) as (s' & ->).
  cbn [marks lookups flat_map app].
  fold (marks (events_of (checkAllVehicles json_Marshal client_Post vehicles notify s'))).
  fold (lookups (events_of (checkAllVehicles json_Marshal client_Post vehicles notify s'))).
  now rewrite (checkAllVehicles_rounds World json_Marshal client_Post vehicles notify s').
Qed.

(** X19. One turn of the loop of the scheduler first sleeps, once, for the
    time from the second reading of the clock to the trigger computed from
    the first reading, and only then makes one full sweep: one lookup per
    vehicle in order, each followed by the text about it, with a cooldown
    of 30 minutes before every lookup but the first.  When the clock does
    not run backwards between the two readings, the first sleep is shorter
    than 24 hours. *)
Theorem StartScheduler_turn_waits_then_sweeps (vehicles : list string)
    (notify : NotifyFunc World) (s : State World) :
  let evs :=
    events_of (StartScheduler_turn json_Marshal client_Post time_Now vehicles notify s) in
  let wait := time.Sub (nextRun (firstReading time_Now s)) (secondReading time_Now s) in
  let text := fun (reg : string) (r : lookup_result) =>
    match r with
    | inl err => "❌ Failed to check *" ++ reg ++ "*: " ++ Error err
    | inr data => FormatResult reg data
    end in
  marks evs = Waited wait :: rounds_from (30 * time.Minute)%Z text true (lookups evs)
  /\ map fst (lookups evs) = vehicles
  /\ sleeps evs
     = wait :: repeat (30 * time.Minute)%Z (List.length vehicles - 1)
  /\ ((time.unixNano (firstReading time_Now s)
       <= time.unixNano (secondReading time_Now s))%Z ->
      (wait < 24 * time.Hour)%Z).
Proof.
  cbn zeta.
  destruct (StartScheduler_turn_trace vehicles notify s) as (Hw & Hl & Hn).
  split; [exact (StartScheduler_turn_rounds vehicles notify s)|].
  split; [exact Hl|]. split; [exact Hw|].
  intros Hclock. destruct (nextRun_slot (firstReading time_Now s)) as (k & -> & Hk).
  unfold time.Sub.
  assert (H24 : (24 * time.Hour = 86400000000000)%Z) by reflexivity.
  rewrite H24. lia.
Qed.

(** X20. After [turns] turns of its loop the scheduler has made [turns]
    full sweeps: the lookups are the vehicle list, in order, [turns] times
    over, and every lookup has been reported. *)
Theorem StartScheduler_sweeps_every_turn (turns : nat) (vehicles : list string)
    (notify : NotifyFunc World) (s : State World) :
  let evs :=
    events_of (StartScheduler json_Marshal client_Post time_Now turns vehicles notify s) in
  map fst (lookups evs) = concat (repeat vehicles turns)
  /\ notifications evs = map report (lookups evs).
Proof.
  cbn zeta. unfold StartScheduler.
  rewrite events_bind, lookups_app, notifications_app.
  cbn [slog_Info emit events_of state_of snd fst lookups notifications flat_map app].
  generalize s. clear s.
  induction turns as [|k IH]; intros s; [split; reflexivity|].
  cbn [StartScheduler_loop repeat concat].
  rewrite events_bind, lookups_app, notifications_app, !map_app.
  destruct (StartScheduler_turn_trace vehicles notify s) as (_ & Hl & Hn).
  destruct (IH (state_of (StartScheduler_turn json_Marshal client_Post time_Now
                            vehicles notify s))) as (IHl & IHn).
  rewrite Hl, Hn, IHl, IHn. split; reflexivity.
Qed.

End SchedulerLoop.

(** ** The command loop *)

Section CommandLoop.

Variable World : Type.
Variable json_Marshal : string -> error + string.
Variable client_Post : string -> string -> World -> (error + http.Response) * World.
Variable bot_SendMessage : string -> string -> World -> option error * World.
Variable TrimFunc_IsSpace : string -> string.
Variable TrimRightFunc_IsSpace : string -> string.
Variable Map_ToUpper : string -> string.
Variable masterID : Z.
Variable vehicleList : list string.

Local Notation "'handle'" :=
  (handleUpdate bot_SendMessage TrimFunc_IsSpace TrimRightFunc_IsSpace Map_ToUpper
     masterID vehicleList).
Local Notation "'serving'" :=
  (serve bot_SendMessage TrimFunc_IsSpace TrimRightFunc_IsSpace Map_ToUpper
     masterID vehicleList).
Local Notation "'registrationsOf'" :=
  (checkRegistrations TrimFunc_IsSpace TrimRightFunc_IsSpace Map_ToUpper vehicleList).
Local Notation "'started'" :=
  (startedBy TrimFunc_IsSpace TrimRightFunc_IsSpace Map_ToUpper masterID vehicleList).

Lemma bind_ret_l {A B} (a : A) (f : A -> M World B) (s : State World) :
  bind (ret a) f s = f a s.
Proof. unfold bind, ret. destruct (f a s) as [[b s2] e2]. reflexivity. Qed.

Lemma bind_ret_r {A} (m : M World A) (s : State World) :
  bind m (fun a => ret a) s = m s.
Proof.
  unfold bind, ret. destruct (m s) as [[a s1] e1]. now rewrite app_nil_r.
Qed.

Lemma bind_ext {A B} (m : M World A) (f g : A -> M World B) (s : State World) :
  (forall a s', f a s' = g a s') -> bind m f s = bind m g s.
Proof.
  intros H. unfold bind. destruct (m s) as [[a s1] e1]. now rewrite H.
Qed.

Lemma bind_at {A B} (m m' : M World A) (f : A -> M World B) (s : State World) :
  m s = m' s -> bind m f s = bind m' f s.
Proof. intros H. unfold bind. now rewrite H. Qed.

Lemma handleUpdate_ignored (update : Update) (s : State World) :
  fromMaster masterID update = false -> handle update s = ret None s.
Proof.
  destruct update as [message|]; [|reflexivity].
  unfold fromMaster, handleUpdate.
  destruct (Message.ChatID message =? masterID)%Z; [|reflexivity].
  cbn [andb negb]. intros ->. reflexivity.
Qed.

(** X21. Updates without a message, from another chat than the master's,
    or that are no command have no effect at all: the loop behaves on a
    sequence of updates as on the commands of the master in it, in what it
    sends, in the goroutines it starts and in the state it leaves. *)
Theorem serve_ignores_other_updates (updates : list Update) (s : State World) :
  serving updates s = serving (filter (fromMaster masterID) updates) s.
Proof.
  revert s. induction updates as [|update rest IH]; intros s; [reflexivity|].
  cbn [serve filter].
  destruct (fromMaster masterID update) eqn:Hfrom.
  - cbn [serve]. apply bind_ext. intros started s'.
    apply bind_at. apply IH.
  - rewrite (bind_at _ _ _ s (handleUpdate_ignored update s Hfrom)).
    rewrite bind_ret_l, bind_ret_r. apply IH.
Qed.

(** What handling one update does: it starts the goroutine that the update
    asks for, sends one message when the update is a command of the master
    and none otherwise, and neither looks a vehicle up nor sleeps. *)
Lemma handleUpdate_trace (update : Update) (s : State World) :
  result_of (handle update s) = started update
  /\ List.length (notifications (events_of (handle update s)))
     = (if fromMaster masterID update then 1 else 0)%nat
  /\ schedule (events_of (handle update s)) = []
  /\ posts (events_of (handle update s)) = [].
Proof.
  destruct update as [message|]; [|repeat split].
  unfold handleUpdate, startedBy, fromMaster.
  destruct (Message.ChatID message =? masterID)%Z; [|repeat split].
  destruct (Message.IsCommand message); [|repeat split].
  cbn [negb andb].
  destruct (Message.Command message =? "start") eqn:Hstart.
  { apply String.eqb_eq in Hstart. rewrite Hstart. run_monad; repeat split. }
  destruct (Message.Command message =? "help") eqn:Hhelp.
  { apply String.eqb_eq in Hhelp. rewrite Hhelp. run_monad; repeat split. }
  destruct (Message.Command message =? "check"); run_monad; repeat split.
Qed.

(** X22. A [/check] command of the master with an argument that is not
    blank is announced as a check of 1 vehicle and starts a goroutine for
    exactly one registration: the whole argument, trimmed and in upper
    case, whether the configured list holds it or not.  That goroutine
    makes one lookup and never sleeps. *)
Theorem check_with_argument (message : Message.t) (s s' : State World)
    (Hchat : Message.ChatID message = masterID)
    (Hcommand : Message.IsCommand message = true)
    (Hcheck : Message.Command message = "check")
    (Hargument :
       TrimSpace TrimFunc_IsSpace TrimRightFunc_IsSpace
         (Message.CommandArguments message) <> "") :
  let reg :=
    ToUpper Map_ToUpper
      (TrimSpace TrimFunc_IsSpace TrimRightFunc_IsSpace
         (Message.CommandArguments message)) in
  result_of (handle (Some message) s) = Some [reg]
  /\ notifications (events_of (handle (Some message) s))
     = ["🔎 Checking 1 vehicle(s)..."]
  /\ schedule (events_of (checkGoroutine json_Marshal client_Post bot_SendMessage
                            [reg] s'))
     = [Lookup reg].
Proof.
  cbn zeta. split; [|split].
  - destruct (handleUpdate_trace (Some message) s) as (-> & _).
    unfold startedBy, checkRegistrations.
    rewrite Hchat, Z.eqb_refl, Hcommand, Hcheck.
    apply String.eqb_neq in Hargument. rewrite Hargument. reflexivity.
  - unfold handleUpdate, checkRegistrations.
    rewrite Hchat, Z.eqb_refl, Hcommand, Hcheck.
    apply String.eqb_neq in Hargument. rewrite Hargument.
    run_monad; reflexivity.
  - unfold checkGoroutine.
    destruct (onDemandCheck_trace World json_Marshal client_Post
                (bot_SendMessage "Markdown")
                [ToUpper Map_ToUpper
                   (TrimSpace TrimFunc_IsSpace TrimRightFunc_IsSpace
                      (Message.CommandArguments message))] s') as [Hs _].
    exact Hs.
Qed.

(** X23. A [/check] command of the master with a blank argument is
    announced with the number of configured vehicles and starts a goroutine
    for the configured list, which looks every vehicle up in order with 10
    minutes of sleep before each but the first. *)
Theorem check_without_argument (message : Message.t) (s s' : State World)
    (Hchat : Message.ChatID message = masterID)
    (Hcommand : Message.IsCommand message = true)
    (Hcheck : Message.Command message = "check")
    (Hargument :
       TrimSpace TrimFunc_IsSpace TrimRightFunc_IsSpace
         (Message.CommandArguments message) = "") :
  result_of (handle (Some message) s) = Some vehicleList
  /\ notifications (events_of (handle (Some message) s))
     = ["🔎 Checking " ++ itoa (len vehicleList) ++ " vehicle(s)..."]
  /\ schedule (events_of (checkGoroutine json_Marshal client_Post bot_SendMessage
                            vehicleList s'))
     = cooldown_plan (10 * time.Minute)%Z vehicleList.
Proof.
  split; [|split].
  - destruct (handleUpdate_trace (Some message) s) as (-> & _).
    unfold startedBy, checkRegistrations.
    rewrite Hchat, Z.eqb_refl, Hcommand, Hcheck, Hargument. reflexivity.
  - unfold handleUpdate, checkRegistrations.
    rewrite Hchat, Z.eqb_refl, Hcommand, Hcheck, Hargument.
    run_monad; reflexivity.
  - unfold checkGoroutine.
    apply (onDemandCheck_trace World json_Marshal client_Post
             (bot_SendMessage "Markdown") vehicleList s').
Qed.

(** X24. A command of the master other than [check] is answered with one
    fixed text (the start text, the help text, or the "unknown command"
    text for anything else) and starts no goroutine, whether the answer
    can be delivered or not. *)
Theorem other_command_replies (message : Message.t) (s : State World)
    (Hchat : Message.ChatID message = masterID)
    (Hcommand : Message.IsCommand message = true)
    (Hother : Message.Command message <> "check") :
  result_of (handle (Some message) s) = None
  /\ notifications (events_of (handle (Some message) s))
     = [replyTo (Message.Command message)]
  /\ (Message.Command message <> "start" ->
      Message.Command message <> "help" ->
      notifications (events_of (handle (Some message) s))
      = ["I don't know that command"]).
Proof.
  assert (H : result_of (handle (Some message) s) = None
              /\ notifications (events_of (handle (Some message) s))
                 = [replyTo (Message.Command message)]).
  { unfold handleUpdate, replyTo.
    rewrite Hchat, Z.eqb_refl, Hcommand. cbn [negb].
    apply String.eqb_neq in Hother. rewrite Hother.
    destruct (Message.Command message =? "start");
      [run_monad; split; reflexivity|].
    destruct (Message.Command message =? "help"); run_monad; split; reflexivity. }
  destruct H as [Hr Hn]. split; [exact Hr|]. split; [exact Hn|].
  intros Hs Hh. rewrite Hn. unfold replyTo.
  apply String.eqb_neq in Hs, Hh. now rewrite Hs, Hh.
Qed.

(** X25. Over any sequence of updates the command loop itself never looks
    a vehicle up, never sends a request and never sleeps; it sends exactly
    one message per command of the master; and the goroutines it starts
    are those of the [/check] commands of the master, in order, whatever
    the chat service answers. *)
Theorem serve_trace (updates : list Update) (s : State World) :
  let run := serving updates s in
  result_of run
  = flat_map (fun update => match started update with
                            | Some regs => [regs]
                            | None => []
                            end) updates
  /\ List.length (notifications (events_of run))
     = List.length (filter (fromMaster masterID) updates)
  /\ schedule (events_of run) = []
  /\ posts (events_of run) = [].
Proof.
  cbn zeta. revert s. induction updates as [|update rest IH]; intros s.
  - repeat split.
  - cbn [serve flat_map filter].
    rewrite !result_bind, !events_bind.
    rewrite !notifications_app, !schedule_app, !posts_app, !length_app.
    destruct (handleUpdate_trace update s) as (Hr & Hn & Hs & Hp).
    destruct (IH (state_of (handle update s))) as (IHr & IHn & IHs & IHp).
    rewrite Hr, Hn, Hs, Hp, IHr, IHn, IHs, IHp.
    cbn [ret result_of events_of fst snd notifications schedule posts flat_map
         List.length app].
    rewrite Nat.add_0_r.
    destruct (started update); destruct (fromMaster masterID update);
      repeat split.
Qed.

End CommandLoop.

Lemma FormatResult_success_layout_witness :
  FormatResult "T945CAP" MoreSamples.noTotal
  = reportHeader "T945CAP" ++ pendingPart MoreSamples.noTotal
      ++ inspectionPart MoreSamples.noTotal.
Proof.
  exact (FormatResult_success_layout "T945CAP" MoreSamples.noTotal eq_refl).
Defined.

Lemma check_with_argument_witness :
  result_of (BotSamples.handleUpdate
               (Some (BotSamples.message BotSamples.master "check" " t999zzz "))
               badDay)
  = Some ["T999ZZZ"]
  /\ notifications (events_of
        (BotSamples.handleUpdate
           (Some (BotSamples.message BotSamples.master "check" " t999zzz ")) badDay))
     = ["🔎 Checking 1 vehicle(s)..."]
  /\ schedule (events_of (BotSamples.checkGoroutine ["T999ZZZ"] badDay))
     = [Lookup "T999ZZZ"].
Proof.
  apply (check_with_argument Script.t Script.marshal Script.post BotSamples.send
           (fun s => s) (fun s => s) (fun s => s) BotSamples.master threeVehicles
           (BotSamples.message BotSamples.master "check" " t999zzz ") badDay badDay).
  - reflexivity.
  - reflexivity.
  - reflexivity.
  - discriminate.
Defined.

Lemma check_without_argument_witness :
  result_of (BotSamples.handleUpdate
               (Some (BotSamples.message BotSamples.master "check" "  ")) badDay)
  = Some threeVehicles
  /\ notifications (events_of
        (BotSamples.handleUpdate
           (Some (BotSamples.message BotSamples.master "check" "  ")) badDay))
     = ["🔎 Checking 3 vehicle(s)..."]
  /\ schedule (events_of (BotSamples.checkGoroutine threeVehicles badDay))
     = [Lookup "T945CAP"; Wait 600000000000%Z; Lookup "T267DFF";
        Wait 600000000000%Z; Lookup "T111AAA"].
Proof.
  apply (check_without_argument Script.t Script.marshal Script.post BotSamples.send
           (fun s => s) (fun s => s) (fun s => s) BotSamples.master threeVehicles
           (BotSamples.message BotSamples.master "check" "  ") badDay badDay).
  - reflexivity.
  - reflexivity.
  - reflexivity.
  - reflexivity.
Defined.

Lemma other_command_replies_witness :
  result_of (BotSamples.handleUpdate
               (Some (BotSamples.message BotSamples.master "stop" "")) badDay)
  = None
  /\ notifications (events_of
        (BotSamples.handleUpdate
           (Some (BotSamples.message BotSamples.master "stop" "")) badDay))
     = ["I don't know that command"].
Proof.
  destruct (other_command_replies Script.t BotSamples.send
              (fun s => s) (fun s => s) (fun s => s) BotSamples.master threeVehicles
              (BotSamples.message BotSamples.master "stop" "") badDay
              eq_refl eq_refl ltac:(discriminate)) as (Hr & _ & Hn).
  split; [exact Hr|]. apply Hn; discriminate.
Defined.

(** An update without message, a command from another chat and a text that
    is no command are passed over; [/check t1 t2] asks for the one
    registration [T1 T2]. *)
Example serve_sample :
  result_of
    (serve BotSamples.send (fun s => s) (fun s => s) (fun s => s)
       BotSamples.master threeVehicles
       [None;
        BotSamples.command 42 "check" "";
        Some {| Message.ChatID := BotSamples.master; Message.IsCommand := false;
                Message.Command := ""; Message.CommandArguments := "" |};
        BotSamples.command BotSamples.master "help" "";
        BotSamples.command BotSamples.master "check" "t1 t2"]
       badDay)
  = [["T1 T2"]].
Proof. reflexivity. Qed.

(** ** Bytes, not characters *)

Lemma prefix_append (s post : string) : prefix s (s ++ post) = true.
Proof.
  induction s as [|c s IH]; [destruct post; reflexivity|].
  cbn [append prefix]. destruct (ascii_dec c c); [exact IH|contradiction].
Qed.

Lemma occurs_complete (s t : string) : Contains s t -> occurs s t = true.
Proof.
  intros (pre & post & ->).
  induction pre as [|c pre IH].
  - cbn [append]. destruct (s ++ post) eqn:E.
    + cbn [occurs]. rewrite <- E, prefix_append. reflexivity.
    + cbn [occurs]. rewrite <- E, prefix_append. reflexivity.
  - cbn [append occurs]. rewrite IH. apply orb_true_r.
Qed.

(** C8 as stated fails on dates that are not ASCII: both dates of the
    record are longer than 10 characters, and the report does not show the
    line made of the first 10 characters of each; it shows the first 10
    bytes, which end in the middle of the tenth character. *)
Lemma dates_cut_in_bytes_not_characters :
  (10 < charLength Accented.inspectionDate)%nat
  /\ (10 < charLength Accented.validUntil)%nat
  /\ ~ Contains
         ("   📅 " ++ takeChars 10 Accented.inspectionDate
            ++ " → " ++ takeChars 10 Accented.validUntil ++ nl)
         (FormatResult "T945CAP" Accented.response)
  /\ Contains
       ("   📅 " ++ substring 0 10 Accented.inspectionDate
          ++ " → " ++ substring 0 10 Accented.validUntil ++ nl)
       (FormatResult "T945CAP" Accented.response)
  /\ String.length (takeChars 10 Accented.inspectionDate) = 11%nat
  /\ String.length (substring 0 10 Accented.inspectionDate) = 10%nat.
Proof.
  split; [vm_compute; lia|]. split; [vm_compute; lia|].
  split; [|split; [|split; reflexivity]].
  - intros H. apply occurs_complete in H. vm_compute in H. discriminate.
  - rewrite (FormatResult_parts "T945CAP" Accented.response eq_refl).
    do 2 apply Contains_app_r.
    apply (Contains_trans _ (inspectionBlock 0 Accented.inspection "")).
    + apply (inspectionBlock_dateLine 0 Accented.inspection); simpl; lia.
    + unfold inspectionPart. cbn [Accented.response APIResponse.InspectionData].
      skip_left.
      exact (blocks_Contains inspectionBlock [Accented.inspection] 0
               Accented.inspection eq_refl).
Qed.
